(** * lbcd claimtrie: chain dump / replay / convert commands

    A shallow embedding of [claimtrie/cmd/cmd/chain.go]: the change
    extractor ([processBlock]), the converter pipeline stages ([getBlock],
    [processBlock], [saveChanges]) and the replay engine
    ([NewChainReplayCommand], [appendBlock]).

    The packages the file imports ([wire], [txscript], [blockchain],
    [change], [chainrepo], [claimtrie]) are not part of the embedded file.
    Their data types are given as records carrying the fields the file
    reads, and their operations are interfaces (type classes): every theorem
    below holds for all implementations of these interfaces. *)

From Stdlib Require Import ZArith Lia.
From Stdlib.Strings Require Byte.
From stdpp Require Import base option list gmap strings.

Local Open Scope Z_scope.

(** Go's [[]byte]. *)
Definition bytes : Type := list Byte.byte.

#[global] Instance byte_eq_dec : EqDecision Byte.byte := Byte.byte_eq_dec.
#[global] Instance bytes_eq_dec : EqDecision bytes := _.

(** Wrap-around of the fixed-width integers the file uses. *)
Definition uint32 (z : Z) : Z := z mod 2 ^ 32.
Definition int32 (z : Z) : Z := (z + 2 ^ 31) mod 2 ^ 32 - 2 ^ 31.
Definition MaxInt32 : Z := 2 ^ 31 - 1.
Definition MinInt32 : Z := - 2 ^ 31.
Definition is_int32 (z : Z) : Prop := MinInt32 <= z <= MaxInt32.

(** ** package chainhash *)
Module chainhash.

(** A 32-byte digest; Go compares two of them with [==] and [!=]. *)
Definition Hash : Type := bytes.

#[global] Instance Hash_eq_dec : EqDecision Hash := bytes_eq_dec.

End chainhash.

(** ** package wire *)
Module wire.

Record OutPoint : Type := mkOutPoint { Hash : chainhash.Hash; Index : Z }.

(** [wire.NewOutPoint(hash, index)] *)
Definition NewOutPoint (hash : chainhash.Hash) (index : Z) : OutPoint :=
  mkOutPoint hash index.

Record TxIn : Type := mkTxIn { PreviousOutPoint : OutPoint }.

Record TxOut : Type := mkTxOut { Value : Z; PkScript : bytes }.

End wire.

(** ** package btcutil: [btcutil.Tx] and [btcutil.Block], with the accessors
    the file calls ([tx.Hash()], [tx.MsgTx().TxIn], [tx.MsgTx().TxOut],
    [block.Height()], [block.Transactions()],
    [block.MsgBlock().Header.ClaimTrie]). *)
Module btcutil.

Record Tx : Type := mkTx {
  TxHash : chainhash.Hash;
  TxIn : list wire.TxIn;
  TxOut : list wire.TxOut
}.

Record Block : Type := mkBlock {
  Height : Z;
  Transactions : list Tx;
  ClaimTrie : chainhash.Hash
}.

End btcutil.

(** ** package txscript *)
Module txscript.

(** [cs.Opcode()] is a byte; the file only ever compares it with the three
    claim opcodes in a [switch] without [default], so the byte is kept as
    the case of the switch it selects. *)
Inductive Opcode : Type :=
| OP_CLAIMNAME | OP_SUPPORTCLAIM | OP_UPDATECLAIM | OP_other.

(** The methods of a decoded claim script that the file calls. *)
Record ClaimScript : Type := mkClaimScript {
  Opcode_ : Opcode;
  Name : bytes;
  ClaimID : bytes
}.

(** Non-nil [error] values of [DecodeClaimScript]: the sentinel the file
    compares with, and every other error. *)
Inductive error : Type :=
| ErrNotClaimScript
| ErrInvalidClaimScript.

(** [DecodeClaimScript(script) (ClaimScript, error)]: both results, each
    of which may be nil. *)
Class Decoder : Type := {
  DecodeClaimScript : bytes -> option ClaimScript * option error
}.

End txscript.

(** ** package change *)
Module change.

(** [ChangeType] is an integer type with five named constants; values
    read back from the store may be any integer. *)
Inductive ChangeType : Type :=
| AddClaim | SpendClaim | UpdateClaim | AddSupport | SpendSupport
| invalid (n : Z).

(** [ClaimID] is a fixed-width byte array. *)
Definition ClaimID : Type := bytes.

Record Change : Type := mkChange {
  Type_ : ChangeType;
  Height : Z;
  Name : bytes;
  ClaimID_ : ClaimID;
  OutPoint : wire.OutPoint;
  Amount : Z
}.

(** What the package declares and the file uses: the width of a
    [ClaimID], the zero value of [ChangeType] (the value a [Change]
    literal leaves in [Type]) and [NewClaimID]. *)
Class Pkg : Type := {
  ClaimIDSize : nat;
  ZeroType : ChangeType;
  NewClaimID : wire.OutPoint -> ClaimID
}.

(** The zero value of the [ClaimID] array. *)
Definition ZeroClaimID `{Pkg} : ClaimID := replicate ClaimIDSize Byte.x00.

(** Go's [copy(dst, src)] returning the updated [dst]: the first
    [min(len(dst), len(src))] bytes come from [src]. *)
Definition copy (dst src : bytes) : bytes :=
  let n := Nat.min (length dst) (length src) in
  take n src ++ drop n dst.

End change.

(** ** package blockchain *)
Module blockchain.

(** [*UtxoEntry] with the one accessor the file calls. *)
Record UtxoEntry : Type := mkUtxoEntry { PkScript : bytes }.

(** [UtxoViewpoint] and [IsCoinBase]. [AddTxOuts] mutates the view: it
    takes the view and returns the updated one. [LookupEntry] returns
    nil ([None]) for an outpoint the view does not hold. *)
Class Utxo : Type := {
  UtxoViewpoint : Type;
  NewUtxoViewpoint : UtxoViewpoint;
  AddTxOuts : UtxoViewpoint -> btcutil.Tx -> Z -> UtxoViewpoint;
  LookupEntry : UtxoViewpoint -> wire.OutPoint -> option UtxoEntry;
  IsCoinBase : btcutil.Tx -> bool
}.

End blockchain.

(** * The extractor: the body of [processBlock]

    A run of the extractor either completes or panics. [log.Criticalf] only
    writes a log line and returns, so the statements after it run; a method
    called on a nil [*UtxoEntry] or a nil [ClaimScript] panics, which
    terminates the whole process. *)

Inductive PanicReason : Type :=
| NilUtxoEntry (op : wire.OutPoint)
| NilClaimScript (script : bytes)
| IndexOutOfRange.

Inductive Run (A : Type) : Type :=
| Done (a : A)
| Panic (why : PanicReason).
Arguments Done {A} a.
Arguments Panic {A} why.

Definition run_bind {A B : Type} (r : Run A) (k : A -> Run B) : Run B :=
  match r with
  | Done a => k a
  | Panic why => Panic why
  end.

Notation "'let*' x := r 'in' k" := (run_bind r (fun x => k))
  (at level 10, x name, r at level 100, k at level 200).

Section Extractor.

Context `{Dec : txscript.Decoder} `{Chg : change.Pkg} `{Bc : blockchain.Utxo}.

(** The [switch cs.Opcode()] of the input loop, applied to the literal
    [chg] built before it. *)
Definition spendSwitch (cs : txscript.ClaimScript) (chg : change.Change)
  : change.Change :=
  match txscript.Opcode_ cs with
  | txscript.OP_CLAIMNAME =>
      change.mkChange change.SpendClaim (change.Height chg) (change.Name chg)
        (change.NewClaimID (change.OutPoint chg))
        (change.OutPoint chg) (change.Amount chg)
  | txscript.OP_UPDATECLAIM =>
      change.mkChange change.SpendClaim (change.Height chg) (change.Name chg)
        (change.copy (change.ClaimID_ chg) (txscript.ClaimID cs))
        (change.OutPoint chg) (change.Amount chg)
  | txscript.OP_SUPPORTCLAIM =>
      change.mkChange change.SpendSupport (change.Height chg) (change.Name chg)
        (change.copy (change.ClaimID_ chg) (txscript.ClaimID cs))
        (change.OutPoint chg) (change.Amount chg)
  | txscript.OP_other => chg
  end.

(** One iteration of [for _, txIn := range tx.MsgTx().TxIn]: [Done None]
    is [continue], [Done (Some chg)] is the record appended to
    [changes]. *)
Definition spendChange (height : Z) (view : blockchain.UtxoViewpoint)
    (txIn : wire.TxIn) : Run (option change.Change) :=
  let op := wire.PreviousOutPoint txIn in
  match blockchain.LookupEntry view op with
  | None => Panic (NilUtxoEntry op)
  | Some e =>
      match txscript.DecodeClaimScript (blockchain.PkScript e) with
      | (_, Some txscript.ErrNotClaimScript) => Done None
      | (None, _) => Panic (NilClaimScript (blockchain.PkScript e))
      | (Some cs, _) =>
          let chg :=
            change.mkChange change.ZeroType height (txscript.Name cs)
              change.ZeroClaimID (wire.PreviousOutPoint txIn) 0 in
          Done (Some (spendSwitch cs chg))
      end
  end.

Fixpoint spendChanges (height : Z) (view : blockchain.UtxoViewpoint)
    (txIns : list wire.TxIn) (changes : list change.Change)
  : Run (list change.Change) :=
  match txIns with
  | [] => Done changes
  | txIn :: rest =>
      let* o := spendChange height view txIn in
      match o with
      | None => spendChanges height view rest changes
      | Some chg => spendChanges height view rest (changes ++ [chg])
      end
  end.

(** The [switch cs.Opcode()] of the output loop. *)
Definition createSwitch (cs : txscript.ClaimScript) (op : wire.OutPoint)
    (chg : change.Change) : change.Change :=
  match txscript.Opcode_ cs with
  | txscript.OP_CLAIMNAME =>
      change.mkChange change.AddClaim (change.Height chg) (change.Name chg)
        (change.NewClaimID op)
        (change.OutPoint chg) (change.Amount chg)
  | txscript.OP_SUPPORTCLAIM =>
      change.mkChange change.AddSupport (change.Height chg) (change.Name chg)
        (change.copy (change.ClaimID_ chg) (txscript.ClaimID cs))
        (change.OutPoint chg) (change.Amount chg)
  | txscript.OP_UPDATECLAIM =>
      change.mkChange change.UpdateClaim (change.Height chg) (change.Name chg)
        (change.copy (change.ClaimID_ chg) (txscript.ClaimID cs))
        (change.OutPoint chg) (change.Amount chg)
  | txscript.OP_other => chg
  end.

(** One iteration of [for i, txOut := range tx.MsgTx().TxOut]; [hash] is
    the hash of the outpoint [op] made before the loop from [tx.Hash()]. *)
Definition createChange (height : Z) (hash : chainhash.Hash) (i : nat)
    (txOut : wire.TxOut) : Run (option change.Change) :=
  match txscript.DecodeClaimScript (wire.PkScript txOut) with
  | (_, Some txscript.ErrNotClaimScript) => Done None
  | (None, _) => Panic (NilClaimScript (wire.PkScript txOut))
  | (Some cs, _) =>
      let op := wire.mkOutPoint hash (uint32 (Z.of_nat i)) in
      let chg :=
        change.mkChange change.ZeroType height (txscript.Name cs)
          change.ZeroClaimID op (wire.Value txOut) in
      Done (Some (createSwitch cs op chg))
  end.

Fixpoint createChanges (height : Z) (hash : chainhash.Hash) (i : nat)
    (txOuts : list wire.TxOut) (changes : list change.Change)
  : Run (list change.Change) :=
  match txOuts with
  | [] => Done changes
  | txOut :: rest =>
      let* o := createChange height hash i txOut in
      match o with
      | None => createChanges height hash (S i) rest changes
      | Some chg => createChanges height hash (S i) rest (changes ++ [chg])
      end
  end.

(** One iteration of [for _, tx := range block.Transactions()]. The view
    is mutated by [AddTxOuts] before anything else happens. *)
Definition processTx (height : Z) (tx : btcutil.Tx)
    (st : blockchain.UtxoViewpoint * list change.Change)
  : Run (blockchain.UtxoViewpoint * list change.Change) :=
  let view := blockchain.AddTxOuts st.1 tx height in
  if blockchain.IsCoinBase tx then Done (view, st.2)
  else
    let* changes := spendChanges height view (btcutil.TxIn tx) st.2 in
    let* changes := createChanges height
                 (wire.Hash (wire.NewOutPoint (btcutil.TxHash tx) 0)) 0
                 (btcutil.TxOut tx) changes in
    Done (view, changes).

Fixpoint processTxs (height : Z) (txs : list btcutil.Tx)
    (st : blockchain.UtxoViewpoint * list change.Change)
  : Run (blockchain.UtxoViewpoint * list change.Change) :=
  match txs with
  | [] => Done st
  | tx :: rest => let* st' := processTx height tx st in processTxs height rest st'
  end.

(** The body of [for block := range cb.blockChan] up to the test of
    [len(changes)]: [var changes []change.Change] starts as nil. *)
Definition extractBlock (view : blockchain.UtxoViewpoint)
    (block : btcutil.Block)
  : Run (blockchain.UtxoViewpoint * list change.Change) :=
  processTxs (btcutil.Height block) (btcutil.Transactions block) (view, []).

End Extractor.

(** ** package chainrepo: the Change Log Store *)
Module chainrepo.

(** Non-nil errors of the store, split by the test the file makes:
    [errors.Is(err, pebble.ErrNotFound)] holds, or it does not. *)
Inductive error : Type :=
| ErrNotFound
| ErrOther.

(** [Load(height) ([]change.Change, error)] returns both results; [Save]
    mutates the store. *)
Class Pebble : Type := {
  Repo : Type;
  Load : Repo -> Z -> list change.Change * option error;
  Save : Repo -> Z -> list change.Change -> Repo * option error
}.

End chainrepo.

(** ** package claimtrie: the state machine *)
Module claimtrie.

(** Every mutating method takes the trie and returns the trie it leaves
    behind together with its [error] result ([true] for non-nil). The
    argument order of each method is the one of the call in the file. *)
Class Trie : Type := {
  ClaimTrie : Type;
  AddClaim : ClaimTrie -> bytes -> wire.OutPoint -> change.ClaimID -> Z
             -> ClaimTrie * bool;
  UpdateClaim : ClaimTrie -> bytes -> wire.OutPoint -> Z -> change.ClaimID
                -> ClaimTrie * bool;
  SpendClaim : ClaimTrie -> bytes -> wire.OutPoint -> change.ClaimID
               -> ClaimTrie * bool;
  AddSupport : ClaimTrie -> bytes -> wire.OutPoint -> Z -> change.ClaimID
               -> ClaimTrie * bool;
  SpendSupport : ClaimTrie -> bytes -> wire.OutPoint -> change.ClaimID
                 -> ClaimTrie * bool;
  AppendBlock : ClaimTrie -> ClaimTrie * bool;
  Height : ClaimTrie -> Z;
  MerkleHash : ClaimTrie -> chainhash.Hash
}.

End claimtrie.

(** ** The canonical ledger: [*blockchain.BlockChain] *)
Module ledger.

(** [chain.BestSnapshot().Height] and [chain.BlockByHeight(height)], whose
    error result is [None]. *)
Class Chain : Type := {
  BlockChain : Type;
  BestSnapshotHeight : BlockChain -> Z;
  BlockByHeight : BlockChain -> Z -> option btcutil.Block
}.

End ledger.

(** ** Package-level state and the operating system *)

(** The [Path] of each repository of the global [cfg]. *)
Record Config : Type := mkConfig {
  BlockRepoPebble : string;
  NodeRepoPebble : string;
  MerkleTrieRepoPebble : string;
  TemporalRepoPebble : string;
  ChainRepoPebble : string
}.

(** The globals [dataDir], [netName], [cfg]; [filepath.Join];
    [os.RemoveAll] ([true] when it returns an error);
    [chainrepo.NewPebble], [claimtrie.New], [loadBlocksDB] and [loadChain],
    each [None] when it returns an error. *)
Class Env `{Tr : claimtrie.Trie} `{Pb : chainrepo.Pebble} `{Ch : ledger.Chain}
  : Type := {
  dataDir : string;
  netName : string;
  cfg : Config;
  filepath_Join : list string -> string;
  os_RemoveAll : string -> bool;
  chainrepo_NewPebble : string -> option chainrepo.Repo;
  claimtrie_New : option claimtrie.ClaimTrie;
  DB : Type;
  loadBlocksDB : option DB;
  loadChain : DB -> option ledger.BlockChain
}.

(** Calls on the file system, the Change Log Store and the block source, in
    the order they are made. *)
Inductive Event : Type :=
| EvRemoveAll (dbPath : string)
| EvNewPebble (dbPath : string)
| EvLoad (height : Z)
| EvSave (height : Z) (changes : list change.Change)
| EvBlockByHeight (height : Z).

(** * The converter pipeline

    Each stage is a goroutine that reads one channel to its end and writes
    one channel; a channel has one sender and one receiver and is FIFO, so a
    stage is a function from the sequence it receives to the sequence it
    sends. The functions give what a stage does when none of its sends
    blocks for ever; a stage whose receiver has stopped, or whose process
    has panicked, has made a prefix of these calls and sends. *)

Section Converter.

Context `{Dec : txscript.Decoder} `{Chg : change.Pkg} `{Bc : blockchain.Utxo}.
Context `{Tr : claimtrie.Trie} `{Pb : chainrepo.Pebble} `{Ch : ledger.Chain}.
Context `{En : !Env}.

(** [for ht := int32(0); ht < toHeight; ht++] of [getBlock], with [n]
    iterations left; the result is the calls made and the blocks sent. *)
Fixpoint getBlockLoop (chain : ledger.BlockChain) (n : nat) (ht : Z)
    (trace : list Event) (blockChan : list btcutil.Block)
  : list Event * list btcutil.Block :=
  match n with
  | O => (trace, blockChan)
  | S n' =>
      let trace := trace ++ [EvBlockByHeight ht] in
      match ledger.BlockByHeight chain ht with
      | None => (trace, blockChan)
      | Some block =>
          getBlockLoop chain n' (int32 (ht + 1)) trace (blockChan ++ [block])
      end
  end.

(** [getBlock]: [ht] starts at 0 and stays below [toHeight], so the loop
    runs [toHeight] times when [toHeight] is positive and not at all
    otherwise. *)
Definition getBlock (chain : ledger.BlockChain)
  : list Event * list btcutil.Block :=
  let toHeight := int32 200000 in
  let toHeight :=
    if toHeight >? ledger.BestSnapshotHeight chain
    then ledger.BestSnapshotHeight chain else toHeight in
  getBlockLoop chain (Z.to_nat toHeight) (int32 0) [] [].

(** [processBlock]: the blocks received, the view and the batches sent so
    far; the result is every batch sent and how the goroutine ended. *)
Fixpoint processBlockLoop (view : blockchain.UtxoViewpoint)
    (blockChan : list btcutil.Block) (changesChan : list (list change.Change))
  : list (list change.Change) * Run blockchain.UtxoViewpoint :=
  match blockChan with
  | [] => (changesChan, Done view)
  | block :: rest =>
      match extractBlock view block with
      | Panic why => (changesChan, Panic why)
      | Done (view', changes) =>
          if negb (length changes =? 0)%nat
          then processBlockLoop view' rest (changesChan ++ [changes])
          else processBlockLoop view' rest changesChan
      end
  end.

Definition processBlock (blockChan : list btcutil.Block)
  : list (list change.Change) * Run blockchain.UtxoViewpoint :=
  processBlockLoop blockchain.NewUtxoViewpoint blockChan [].

(** [for changes := range cb.changesChan] of [saveChanges];
    [changes[0]] panics on an empty batch. *)
Fixpoint saveChangesLoop (chainRepo : chainrepo.Repo)
    (changesChan : list (list change.Change)) (trace : list Event)
  : Run (chainrepo.Repo * list Event) :=
  match changesChan with
  | [] => Done (chainRepo, trace)
  | changes :: rest =>
      match changes with
      | [] => Panic IndexOutOfRange
      | chg0 :: _ =>
          let r := chainrepo.Save chainRepo (change.Height chg0) changes in
          let trace := trace ++ [EvSave (change.Height chg0) changes] in
          match r.2 with
          | Some _ => Done (r.1, trace)
          | None => saveChangesLoop r.1 rest trace
          end
      end
  end.

Definition chainRepoPath : string :=
  filepath_Join [dataDir; netName; "claim_dbs"%string; ChainRepoPebble cfg].

Definition saveChanges (changesChan : list (list change.Change))
  : Run (option chainrepo.Repo * list Event) :=
  match chainrepo_NewPebble chainRepoPath with
  | None => Done (None, [EvNewPebble chainRepoPath])
  | Some chainRepo =>
      let* r := saveChangesLoop chainRepo changesChan
                  [EvNewPebble chainRepoPath] in
      Done (Some r.1, r.2)
  end.

(** What the three stages of a started converter do when each runs to its
    end. *)
Record Converted : Type := mkConverted {
  fetched : list Event * list btcutil.Block;
  processed : list (list change.Change) * Run blockchain.UtxoViewpoint;
  saved : Run (option chainrepo.Repo * list Event)
}.

(** [converter.start()] followed by [converter.wait()]; the converter
    holds [db] and [chain] and nothing else of the command. *)
Definition startAndWait (chain : ledger.BlockChain) : Converted :=
  let fetched := getBlock chain in
  let processed := processBlock fetched.2 in
  mkConverted fetched processed (saveChanges processed.1).

(** [RunE] of [NewChainConvertCommand]; [height] is the variable the
    [--height] flag is bound to. [None] is an error return before the
    converter starts. *)
Definition convertRunE (height : Z) : option Converted :=
  match loadBlocksDB with
  | None => None
  | Some db =>
      match loadChain db with
      | None => None
      | Some chain => Some (startAndWait chain)
      end
  end.

End Converter.

(** * The replay engine *)

(** The errors [appendBlock] returns. *)
Inductive AppendBlockError : Type :=
| ErrAppendBlockFailed
| ErrLoadFromBlockRepo
| ErrHashMismatched (height : Z) (exp got : chainhash.Hash).

(** The errors [RunE] of the replay command returns, one per
    [errors.Wrapf]. *)
Inductive ReplayError : Type :=
| ErrDeleteRepo (dbPath : string)
| ErrOpenChainRepo
| ErrCreateClaimtrie
| ErrLoadBlocksDatabase
| ErrLoadChain
| ErrLoadChanges (ht : Z)
| ErrExecuteChange (chg : change.Change)
| ErrAppendBlock (cause : AppendBlockError).

Section Replay.

Context `{Tr : claimtrie.Trie} `{Pb : chainrepo.Pebble} `{Ch : ledger.Chain}.
Context `{En : !Env}.

(** The state of a replay: the trie (absent until [claimtrie.New] has
    returned it), the calls made so far and the error returned, if any. *)
Record Replayed : Type := mkReplayed {
  ct : option claimtrie.ClaimTrie;
  trace : list Event;
  err : option ReplayError
}.

Definition repoPath (dbName : string) : string :=
  filepath_Join [dataDir; netName; "claim_dbs"%string; dbName].

(** The repositories the replay command deletes, in the order of the
    slice literal. *)
Definition derivedRepos : list string :=
  [BlockRepoPebble cfg; NodeRepoPebble cfg;
   MerkleTrieRepoPebble cfg; TemporalRepoPebble cfg].

(** [for _, dbName := range []string{...}] *)
Fixpoint deleteRepos (dbNames : list string) (trace : list Event)
  : list Event * option ReplayError :=
  match dbNames with
  | [] => (trace, None)
  | dbName :: rest =>
      let dbPath := repoPath dbName in
      let trace := trace ++ [EvRemoveAll dbPath] in
      if os_RemoveAll dbPath then (trace, Some (ErrDeleteRepo dbPath))
      else deleteRepos rest trace
  end.

(** The [switch chg.Type] of the replay loop. *)
Definition applyChange (ct : claimtrie.ClaimTrie) (chg : change.Change)
  : claimtrie.ClaimTrie * bool :=
  match change.Type_ chg with
  | change.AddClaim =>
      claimtrie.AddClaim ct (change.Name chg) (change.OutPoint chg)
        (change.ClaimID_ chg) (change.Amount chg)
  | change.UpdateClaim =>
      claimtrie.UpdateClaim ct (change.Name chg) (change.OutPoint chg)
        (change.Amount chg) (change.ClaimID_ chg)
  | change.SpendClaim =>
      claimtrie.SpendClaim ct (change.Name chg) (change.OutPoint chg)
        (change.ClaimID_ chg)
  | change.AddSupport =>
      claimtrie.AddSupport ct (change.Name chg) (change.OutPoint chg)
        (change.Amount chg) (change.ClaimID_ chg)
  | change.SpendSupport =>
      claimtrie.SpendSupport ct (change.Name chg) (change.OutPoint chg)
        (change.ClaimID_ chg)
  | change.invalid _ => (ct, true)
  end.

(** [for _, chg := range changes] *)
Fixpoint applyChanges (ct : claimtrie.ClaimTrie) (changes : list change.Change)
  : claimtrie.ClaimTrie * option ReplayError :=
  match changes with
  | [] => (ct, None)
  | chg :: rest =>
      let r := applyChange ct chg in
      if r.2 then (r.1, Some (ErrExecuteChange chg))
      else applyChanges r.1 rest
  end.

(** [appendBlock(ct, chain)], with the read it makes on the ledger. *)
Definition appendBlock (ct : claimtrie.ClaimTrie) (chain : ledger.BlockChain)
  : claimtrie.ClaimTrie * list Event * option AppendBlockError :=
  let r := claimtrie.AppendBlock ct in
  if r.2 then (r.1, [], Some ErrAppendBlockFailed)
  else
    let ct := r.1 in
    let ev := [EvBlockByHeight (claimtrie.Height ct)] in
    match ledger.BlockByHeight chain (claimtrie.Height ct) with
    | None => (ct, ev, Some ErrLoadFromBlockRepo)
    | Some block =>
        let hash := btcutil.ClaimTrie block in
        if decide (claimtrie.MerkleHash ct ≠ hash)
        then (ct, ev, Some (ErrHashMismatched (claimtrie.Height ct) hash
                              (claimtrie.MerkleHash ct)))
        else (ct, ev, None)
    end.

(** [for ht := fromHeight; ht < toHeight; ht++] with [n] iterations
    left. *)
Fixpoint replayLoop (chainRepo : chainrepo.Repo) (chain : ledger.BlockChain)
    (n : nat) (ht : Z) (ct : claimtrie.ClaimTrie) (trace : list Event)
  : Replayed :=
  match n with
  | O => mkReplayed (Some ct) trace None
  | S n' =>
      let r := chainrepo.Load chainRepo (int32 (ht + 1)) in
      let changes := r.1 in
      let trace := trace ++ [EvLoad (int32 (ht + 1))] in
      match r.2 with
      | Some chainrepo.ErrOther =>
          mkReplayed (Some ct) trace (Some (ErrLoadChanges ht))
      | Some chainrepo.ErrNotFound | None =>
          let a := applyChanges ct changes in
          match a.2 with
          | Some e => mkReplayed (Some a.1) trace (Some e)
          | None =>
              let b := appendBlock a.1 chain in
              let trace := trace ++ b.1.2 in
              match b.2 with
              | Some e => mkReplayed (Some b.1.1) trace (Some (ErrAppendBlock e))
              | None =>
                  replayLoop chainRepo chain n' (int32 (ht + 1)) b.1.1 trace
              end
          end
      end
  end.

(** The number of iterations of the loop: [ht] runs from [fromHeight] to
    [toHeight - 1], and is below [MaxInt32] throughout, so that no
    increment wraps. *)
Definition iterations (fromHeight toHeight : Z) : nat :=
  Z.to_nat (toHeight - fromHeight).

(** [RunE] of [NewChainReplayCommand]. *)
Definition replayRunE (fromHeight toHeight : Z) : Replayed :=
  match deleteRepos derivedRepos [] with
  | (trace, Some e) => mkReplayed None trace (Some e)
  | (trace, None) =>
      let dbPath := repoPath (ChainRepoPebble cfg) in
      let trace := trace ++ [EvNewPebble dbPath] in
      match chainrepo_NewPebble dbPath with
      | None => mkReplayed None trace (Some ErrOpenChainRepo)
      | Some chainRepo =>
          match claimtrie_New with
          | None => mkReplayed None trace (Some ErrCreateClaimtrie)
          | Some ct =>
              match loadBlocksDB with
              | None => mkReplayed (Some ct) trace (Some ErrLoadBlocksDatabase)
              | Some db =>
                  match loadChain db with
                  | None => mkReplayed (Some ct) trace (Some ErrLoadChain)
                  | Some chain =>
                      replayLoop chainRepo chain
                        (iterations fromHeight toHeight) fromHeight ct trace
                  end
              end
          end
      end
  end.

End Replay.

(** * The dump command *)

(** The errors [RunE] of the dump command returns. *)
Inductive DumpError : Type :=
| ErrDumpOpenChainRepo
| ErrDumpLoadChanges.

(** What a dump has done: the calls made, the records given to
    [showChange] in the order they were given, and the error returned. *)
Record Dumped : Type := mkDumped {
  dumpTrace : list Event;
  shown : list change.Change;
  dumpErr : option DumpError
}.

Section Dump.

Context `{Tr : claimtrie.Trie} `{Pb : chainrepo.Pebble} `{Ch : ledger.Chain}.
Context `{En : !Env}.

(** [for height := fromHeight; height <= toHeight; height++]. The bound is
    inclusive, so that the counter is not bounded away from [MaxInt32] and
    the increment may wrap: the loop is given [fuel] iterations and [None]
    is a loop that has not returned within them. *)
Fixpoint dumpLoop (chainRepo : chainrepo.Repo) (fuel : nat)
    (toHeight height : Z) (trace : list Event) (shown : list change.Change)
  : option Dumped :=
  if height <=? toHeight then
    match fuel with
    | O => None
    | S fuel' =>
        let r := chainrepo.Load chainRepo height in
        let trace := trace ++ [EvLoad height] in
        match r.2 with
        | Some chainrepo.ErrNotFound =>
            dumpLoop chainRepo fuel' toHeight (int32 (height + 1)) trace shown
        | Some chainrepo.ErrOther =>
            Some (mkDumped trace shown (Some ErrDumpLoadChanges))
        | None =>
            dumpLoop chainRepo fuel' toHeight (int32 (height + 1)) trace
              (shown ++ r.1)
        end
    end
  else Some (mkDumped trace shown None).

(** [RunE] of [NewChainDumpCommand]. *)
Definition dumpRunE (fuel : nat) (fromHeight toHeight : Z) : option Dumped :=
  let dbPath :=
    filepath_Join [dataDir; netName; "claim_dbs"%string; ChainRepoPebble cfg] in
  match chainrepo_NewPebble dbPath with
  | None => Some (mkDumped [EvNewPebble dbPath] [] (Some ErrDumpOpenChainRepo))
  | Some chainRepo =>
      dumpLoop chainRepo fuel toHeight fromHeight [EvNewPebble dbPath] []
  end.

End Dump.

(** * The extractor as a machine

    The same loop nest, one statement at a time: a configuration is the
    point the control has reached together with the view and the [changes]
    slice. It is what "running the extractor" means when two runs are
    compared. *)

Section ExtractorMachine.

Context `{Dec : txscript.Decoder} `{Chg : change.Pkg} `{Bc : blockchain.Utxo}.

Inductive Control : Type :=
| AtTxs (txs : list btcutil.Tx)
| AtTxIns (txIns : list wire.TxIn) (tx : btcutil.Tx) (txs : list btcutil.Tx)
| AtTxOuts (i : nat) (txOuts : list wire.TxOut) (tx : btcutil.Tx)
    (txs : list btcutil.Tx)
| Crashed (why : PanicReason).

Record Conf : Type := mkConf {
  control : Control;
  view : blockchain.UtxoViewpoint;
  changes : list change.Change
}.

Inductive step (height : Z) : Conf -> Conf -> Prop :=
| step_coinbase tx txs v c :
    blockchain.IsCoinBase tx = true ->
    step height (mkConf (AtTxs (tx :: txs)) v c)
                (mkConf (AtTxs txs) (blockchain.AddTxOuts v tx height) c)
| step_tx tx txs v c :
    blockchain.IsCoinBase tx = false ->
    step height (mkConf (AtTxs (tx :: txs)) v c)
                (mkConf (AtTxIns (btcutil.TxIn tx) tx txs)
                        (blockchain.AddTxOuts v tx height) c)
| step_in_skip txIn rest tx txs v c :
    spendChange height v txIn = Done None ->
    step height (mkConf (AtTxIns (txIn :: rest) tx txs) v c)
                (mkConf (AtTxIns rest tx txs) v c)
| step_in_append txIn rest tx txs v c chg :
    spendChange height v txIn = Done (Some chg) ->
    step height (mkConf (AtTxIns (txIn :: rest) tx txs) v c)
                (mkConf (AtTxIns rest tx txs) v (c ++ [chg]))
| step_in_panic txIn rest tx txs v c why :
    spendChange height v txIn = Panic why ->
    step height (mkConf (AtTxIns (txIn :: rest) tx txs) v c)
                (mkConf (Crashed why) v c)
| step_in_done tx txs v c :
    step height (mkConf (AtTxIns [] tx txs) v c)
                (mkConf (AtTxOuts 0 (btcutil.TxOut tx) tx txs) v c)
| step_out_skip i txOut rest tx txs v c :
    createChange height (btcutil.TxHash tx) i txOut = Done None ->
    step height (mkConf (AtTxOuts i (txOut :: rest) tx txs) v c)
                (mkConf (AtTxOuts (S i) rest tx txs) v c)
| step_out_append i txOut rest tx txs v c chg :
    createChange height (btcutil.TxHash tx) i txOut = Done (Some chg) ->
    step height (mkConf (AtTxOuts i (txOut :: rest) tx txs) v c)
                (mkConf (AtTxOuts (S i) rest tx txs) v (c ++ [chg]))
| step_out_panic i txOut rest tx txs v c why :
    createChange height (btcutil.TxHash tx) i txOut = Panic why ->
    step height (mkConf (AtTxOuts i (txOut :: rest) tx txs) v c)
                (mkConf (Crashed why) v c)
| step_out_done i tx txs v c :
    step height (mkConf (AtTxOuts i [] tx txs) v c)
                (mkConf (AtTxs txs) v c).

(** Where a run ends: the transactions are exhausted, or the process has
    panicked. *)
Definition result (k : Conf)
  : option (Run (blockchain.UtxoViewpoint * list change.Change)) :=
  match control k with
  | AtTxs [] => Some (Done (view k, changes k))
  | Crashed why => Some (Panic why)
  | _ => None
  end.

Inductive steps (height : Z) : Conf -> Conf -> Prop :=
| steps_refl k : steps height k k
| steps_step k1 k2 k3 :
    step height k1 k2 -> steps height k2 k3 -> steps height k1 k3.

(** A run of the extractor on [block] from [view] that ends in [r]. *)
Definition runs (v : blockchain.UtxoViewpoint) (block : btcutil.Block)
    (r : Run (blockchain.UtxoViewpoint * list change.Change)) : Prop :=
  exists k,
    steps (btcutil.Height block)
      (mkConf (AtTxs (btcutil.Transactions block)) v []) k
    /\ result k = Some r.

End ExtractorMachine.

(** * The order of the specification

    The specification's extractor resolves the inputs of a transaction
    first and registers its outputs afterwards. [processTx_inputsFirst] is
    [processTx] with the two in that order, to compare with the code. *)

Section InputsFirst.

Context `{Dec : txscript.Decoder} `{Chg : change.Pkg} `{Bc : blockchain.Utxo}.

Definition processTx_inputsFirst (height : Z) (tx : btcutil.Tx)
    (st : blockchain.UtxoViewpoint * list change.Change)
  : Run (blockchain.UtxoViewpoint * list change.Change) :=
  if blockchain.IsCoinBase tx
  then Done (blockchain.AddTxOuts st.1 tx height, st.2)
  else
    let* changes := spendChanges height st.1 (btcutil.TxIn tx) st.2 in
    let view := blockchain.AddTxOuts st.1 tx height in
    let* changes := createChanges height (btcutil.TxHash tx) 0
                      (btcutil.TxOut tx) changes in
    Done (view, changes).

End InputsFirst.

(** * Implementations of the interfaces

    Small executable implementations of the imported packages, on which the
    theorems are run on concrete ledgers. *)

Module Sample.

#[export] Instance byte_countable : Countable Byte.byte :=
  inj_countable Byte.to_N Byte.of_N Byte.of_to_N.

(** A claim script is an opcode byte followed by its payload: a name for
    [0xb5]; a 20-byte claim ID and a name for [0xb6] and [0xb7]. An
    opcode byte with a payload that is too short is claim-shaped but
    malformed. *)
Definition decode (script : bytes)
  : option txscript.ClaimScript * option txscript.error :=
  match script with
  | Byte.xb5 :: name =>
      if decide (name = []) then (None, Some txscript.ErrInvalidClaimScript)
      else (Some (txscript.mkClaimScript txscript.OP_CLAIMNAME name []), None)
  | Byte.xb6 :: rest =>
      if decide (length rest <= 20)%nat
      then (None, Some txscript.ErrInvalidClaimScript)
      else (Some (txscript.mkClaimScript txscript.OP_SUPPORTCLAIM
                    (drop 20 rest) (take 20 rest)), None)
  | Byte.xb7 :: rest =>
      if decide (length rest <= 20)%nat
      then (None, Some txscript.ErrInvalidClaimScript)
      else (Some (txscript.mkClaimScript txscript.OP_UPDATECLAIM
                    (drop 20 rest) (take 20 rest)), None)
  | _ => (None, Some txscript.ErrNotClaimScript)
  end.

#[export] Instance decoder : txscript.Decoder :=
  {| txscript.DecodeClaimScript := decode |}.

(** A stand-in for the digest of an outpoint: 20 bytes made of the index
    and the transaction hash. *)
Definition newClaimID (op : wire.OutPoint) : change.ClaimID :=
  take 20 (default Byte.x00 (Byte.of_N (Z.to_N (wire.Index op) mod 256))
           :: wire.Hash op ++ replicate 20 Byte.x00).

#[export] Instance pkg : change.Pkg :=
  {| change.ClaimIDSize := 20;
     change.ZeroType := change.AddClaim;
     change.NewClaimID := newClaimID |}.

(** The unspent-output view as a finite map from outpoints. *)
Definition key (op : wire.OutPoint) : bytes * Z := (wire.Hash op, wire.Index op).

Fixpoint addTxOuts (view : gmap (bytes * Z) blockchain.UtxoEntry)
    (hash : chainhash.Hash) (i : nat) (txOuts : list wire.TxOut)
  : gmap (bytes * Z) blockchain.UtxoEntry :=
  match txOuts with
  | [] => view
  | txOut :: rest =>
      addTxOuts
        (<[(hash, uint32 (Z.of_nat i)) :=
             blockchain.mkUtxoEntry (wire.PkScript txOut)]> view)
        hash (S i) rest
  end.

Definition zeroHash : chainhash.Hash := replicate 32 Byte.x00.

Definition isCoinBase (tx : btcutil.Tx) : bool :=
  match btcutil.TxIn tx with
  | [txIn] =>
      bool_decide (wire.Index (wire.PreviousOutPoint txIn) = 2 ^ 32 - 1
                   /\ wire.Hash (wire.PreviousOutPoint txIn) = zeroHash)
  | _ => false
  end.

#[export] Instance utxo : blockchain.Utxo :=
  {| blockchain.UtxoViewpoint := gmap (bytes * Z) blockchain.UtxoEntry;
     blockchain.NewUtxoViewpoint := ∅;
     blockchain.AddTxOuts view tx _ :=
       addTxOuts view (btcutil.TxHash tx) 0 (btcutil.TxOut tx);
     blockchain.LookupEntry view op := view !! key op;
     blockchain.IsCoinBase := isCoinBase |}.

(** The Change Log Store as a finite map from heights. *)
#[export] Instance pebble : chainrepo.Pebble :=
  {| chainrepo.Repo := gmap Z (list change.Change);
     chainrepo.Load repo height :=
       match repo !! height with
       | Some changes => (changes, None)
       | None => ([], Some chainrepo.ErrNotFound)
       end;
     chainrepo.Save repo height changes := (<[height := changes]> repo, None) |}.

(** A state machine that counts blocks and whose commitment is the
    concatenation of the names it was given. *)
Record trieState : Type := mkTrie { height : Z; names : bytes }.

Definition record (ct : trieState) (name : bytes) : trieState * bool :=
  (mkTrie (height ct) (names ct ++ name), false).

#[export] Instance trie : claimtrie.Trie :=
  {| claimtrie.ClaimTrie := trieState;
     claimtrie.AddClaim ct name _ _ _ := record ct name;
     claimtrie.UpdateClaim ct name _ _ _ := record ct name;
     claimtrie.SpendClaim ct name _ _ := record ct name;
     claimtrie.AddSupport ct name _ _ _ := record ct name;
     claimtrie.SpendSupport ct name _ _ := record ct name;
     claimtrie.AppendBlock ct := (mkTrie (height ct + 1) (names ct), false);
     claimtrie.Height := height;
     claimtrie.MerkleHash := names |}.

(** The ledger as the list of its blocks, the block of height [h] at
    position [h]. *)
#[export] Instance chain : ledger.Chain :=
  {| ledger.BlockChain := list btcutil.Block;
     ledger.BestSnapshotHeight blocks := Z.of_nat (length blocks) - 1;
     ledger.BlockByHeight blocks height :=
       if decide (0 <= height) then blocks !! Z.to_nat height else None |}.

(** The package-level state of a node whose Change Log Store holds [repo]
    and whose ledger is [blocks]; no call of the operating system fails. *)
Definition config : Config :=
  mkConfig "blocks_pebble_db" "node_change_pebble_db" "merkletrie_pebble_db"
    "temporal_pebble_db" "chain_pebble_db".

Definition env (repo : gmap Z (list change.Change)) (blocks : list btcutil.Block)
  : Env :=
  {| dataDir := "/data";
     netName := "mainnet";
     cfg := config;
     filepath_Join := String.concat "/";
     os_RemoveAll _ := false;
     chainrepo_NewPebble _ := Some repo;
     claimtrie_New := Some (mkTrie 0 []);
     DB := unit;
     loadBlocksDB := Some tt;
     loadChain _ := Some blocks |}.

(** ** A small ledger

    Block 1 holds a coinbase and a transaction that creates the claim "a"
    (amount 10); block 2 holds a coinbase and a transaction that spends that
    claim and updates it (amount 7); block 3 holds a coinbase and a
    transaction that spends the updated claim. The header of each block
    holds the commitment of the sample state machine at its height. *)
Definition hashOf (b : Byte.byte) : chainhash.Hash := replicate 32 b.

Definition coinbaseIn : wire.TxIn :=
  wire.mkTxIn (wire.mkOutPoint zeroHash (2 ^ 32 - 1)).

Definition payTo : bytes := [Byte.x76; Byte.xa9].

Definition coinbase (b : Byte.byte) : btcutil.Tx :=
  btcutil.mkTx (hashOf b) [coinbaseIn] [wire.mkTxOut 50 payTo].

Definition nameA : bytes := [Byte.x61].

Definition claimA : bytes := Byte.xb5 :: nameA.

Definition tx1 : btcutil.Tx :=
  btcutil.mkTx (hashOf Byte.x01)
    [wire.mkTxIn (wire.mkOutPoint (hashOf Byte.xc1) 0)]
    [wire.mkTxOut 10 claimA; wire.mkTxOut 39 payTo].

Definition idA : change.ClaimID := newClaimID (wire.mkOutPoint (hashOf Byte.x01) 0).

Definition updateA : bytes := Byte.xb7 :: idA ++ nameA.

Definition tx2 : btcutil.Tx :=
  btcutil.mkTx (hashOf Byte.x02)
    [wire.mkTxIn (wire.mkOutPoint (hashOf Byte.x01) 0)]
    [wire.mkTxOut 7 updateA].

Definition block0 : btcutil.Block := btcutil.mkBlock 0 [coinbase Byte.xc0] [].
Definition block1 : btcutil.Block :=
  btcutil.mkBlock 1 [coinbase Byte.xc1; tx1] nameA.
Definition block2 : btcutil.Block :=
  btcutil.mkBlock 2 [coinbase Byte.xc2; tx2] (nameA ++ nameA ++ nameA).
Definition tx3 : btcutil.Tx :=
  btcutil.mkTx (hashOf Byte.x03)
    [wire.mkTxIn (wire.mkOutPoint (hashOf Byte.x02) 0)]
    [wire.mkTxOut 6 payTo].

Definition block3 : btcutil.Block :=
  btcutil.mkBlock 3 [coinbase Byte.xc3; tx3] (nameA ++ nameA ++ nameA ++ nameA).

Definition ledger4 : list btcutil.Block := [block0; block1; block2; block3].

(** The view after blocks 0 and 1. *)
Definition view1 : gmap (bytes * Z) blockchain.UtxoEntry :=
  addTxOuts (addTxOuts (addTxOuts ∅ (hashOf Byte.xc0) 0 [wire.mkTxOut 50 payTo])
               (hashOf Byte.xc1) 0 [wire.mkTxOut 50 payTo])
    (hashOf Byte.x01) 0 (btcutil.TxOut tx1).

(** The view after blocks 0, 1 and 2. *)
Definition view2 : gmap (bytes * Z) blockchain.UtxoEntry :=
  addTxOuts (addTxOuts view1 (hashOf Byte.xc2) 0 [wire.mkTxOut 50 payTo])
    (hashOf Byte.x02) 0 (btcutil.TxOut tx2).

(** The Change records of the ledger. *)
Definition chgAdd1 : change.Change :=
  change.mkChange change.AddClaim 1 nameA idA
    (wire.mkOutPoint (hashOf Byte.x01) 0) 10.

Definition chgSpend2 : change.Change :=
  change.mkChange change.SpendClaim 2 nameA idA
    (wire.mkOutPoint (hashOf Byte.x01) 0) 0.

Definition chgUpdate2 : change.Change :=
  change.mkChange change.UpdateClaim 2 nameA idA
    (wire.mkOutPoint (hashOf Byte.x02) 0) 7.

Definition chgSpend3 : change.Change :=
  change.mkChange change.SpendClaim 3 nameA idA
    (wire.mkOutPoint (hashOf Byte.x02) 0) 0.

(** The Change Log Store of the ledger, and one whose batch of height 2
    has the name of its second record altered. *)
Definition goodRepo : gmap Z (list change.Change) :=
  <[1 := [chgAdd1]]> (<[2 := [chgSpend2; chgUpdate2]]> (<[3 := [chgSpend3]]> ∅)).

Definition chgAltered2 : change.Change :=
  change.mkChange change.UpdateClaim 2 [Byte.x62] idA
    (wire.mkOutPoint (hashOf Byte.x02) 0) 7.

Definition alteredRepo : gmap Z (list change.Change) :=
  <[1 := [chgAdd1]]> (<[2 := [chgSpend2; chgAltered2]]> (<[3 := [chgSpend3]]> ∅)).

(** A transaction with an output that is claim-shaped but malformed. *)
Definition txBad : btcutil.Tx :=
  btcutil.mkTx (hashOf Byte.x06)
    [wire.mkTxIn (wire.mkOutPoint (hashOf Byte.x01) 1)]
    [wire.mkTxOut 1 [Byte.xb7; Byte.x00]].

Definition blockBad : btcutil.Block :=
  btcutil.mkBlock 2 [coinbase Byte.xc2; txBad] [].

(** A ledger of eleven blocks without transactions, heights 0 to 10. *)
Definition emptyBlock (height : Z) : btcutil.Block := btcutil.mkBlock height [] [].

Definition ledger11 : list btcutil.Block := emptyBlock <$> seqZ 0 11.

(** A node on which deleting the node repository fails. *)
Definition envNoDelete (repo : gmap Z (list change.Change))
    (blocks : list btcutil.Block) : Env :=
  {| dataDir := "/data";
     netName := "mainnet";
     cfg := config;
     filepath_Join := String.concat "/";
     os_RemoveAll dbPath :=
       bool_decide (dbPath = "/data/mainnet/claim_dbs/node_change_pebble_db");
     chainrepo_NewPebble _ := Some repo;
     claimtrie_New := Some (mkTrie 0 []);
     DB := unit;
     loadBlocksDB := Some tt;
     loadChain _ := Some blocks |}.

(** A store whose batch of height 2 holds a record of an unknown type
    between its two records. *)
Definition chgInvalid2 : change.Change :=
  change.mkChange (change.invalid 9) 2 nameA idA
    (wire.mkOutPoint (hashOf Byte.x02) 0) 0.

Definition corruptRepo : gmap Z (list change.Change) :=
  <[1 := [chgAdd1]]> (<[2 := [chgSpend2; chgInvalid2; chgUpdate2]]> ∅).

(** A ledger whose block of height 2 cannot be read. *)
Definition gappedChain : ledger.Chain :=
  {| ledger.BlockChain := list btcutil.Block;
     ledger.BestSnapshotHeight blocks := Z.of_nat (length blocks) - 1;
     ledger.BlockByHeight blocks height :=
       if decide (0 <= height /\ height <> 2)
       then blocks !! Z.to_nat height else None |}.

End Sample.

(** * Properties the claims are stated with *)

(** Spend-side and creation-side change types. *)
Definition isSpend (t : change.ChangeType) : bool :=
  match t with
  | change.SpendClaim | change.SpendSupport => true
  | _ => false
  end.

Definition isCreation (t : change.ChangeType) : bool :=
  match t with
  | change.AddClaim | change.UpdateClaim | change.AddSupport => true
  | _ => false
  end.

(** A spend-side change of [tx]: a spend whose outpoint is the previous
    outpoint of one of the inputs of [tx]. *)
Definition spendSide (tx : btcutil.Tx) (chg : change.Change) : Prop :=
  isSpend (change.Type_ chg) = true /\
  exists txIn, txIn ∈ btcutil.TxIn tx /\
    change.OutPoint chg = wire.PreviousOutPoint txIn.

(** A creation-side change of [tx]: a creation whose outpoint is one of the
    outputs of [tx] and whose amount is the value of that output. *)
Definition creationSide (tx : btcutil.Tx) (chg : change.Change) : Prop :=
  isCreation (change.Type_ chg) = true /\
  exists (i : nat) txOut, btcutil.TxOut tx !! i = Some txOut /\
    change.OutPoint chg = wire.mkOutPoint (btcutil.TxHash tx) (uint32 (Z.of_nat i)) /\
    change.Amount chg = wire.Value txOut.

(** The decoder only returns scripts of the three claim opcodes. *)
Definition claimOpcodes `{Dec : txscript.Decoder} : Prop :=
  forall script cs e,
    txscript.DecodeClaimScript script = (Some cs, e) ->
    txscript.Opcode_ cs <> txscript.OP_other.

(** The decoder returns a nil script with every error. *)
Definition nilOnError `{Dec : txscript.Decoder} : Prop :=
  forall script cs e,
    txscript.DecodeClaimScript script = (cs, Some e) -> cs = None.

(** The heights given to [Load] in a trace. *)
Definition loads (tr : list Event) : list Z :=
  omap (fun e => match e with EvLoad h => Some h | _ => None end) tr.

(** The batches given to [Save] in a trace, with their keys. *)
Definition saves (tr : list Event) : list (Z * list change.Change) :=
  omap (fun e => match e with EvSave h b => Some (h, b) | _ => None end) tr.

(** The heights given to [BlockByHeight] in a trace. *)
Definition reads (tr : list Event) : list Z :=
  omap (fun e => match e with EvBlockByHeight h => Some h | _ => None end) tr.

(** [ht] after [k] increments of the loop counter. *)
Definition advance (k : nat) (ht : Z) : Z :=
  Nat.iter k (fun h => int32 (h + 1)) ht.

Section Properties.

Context `{Dec : txscript.Decoder} `{Chg : change.Pkg} `{Bc : blockchain.Utxo}.
Context `{Tr : claimtrie.Trie} `{Pb : chainrepo.Pebble} `{Ch : ledger.Chain}.
Context `{En : !Env}.

(** A batch that the extractor made from one of the blocks received. *)
Definition extractedFrom (blockChan : list btcutil.Block)
    (batch : list change.Change) : Prop :=
  batch <> [] /\
  exists block v v', block ∈ blockChan /\ extractBlock v block = Done (v', batch).

(** A call of [Save] whose batch is not empty, whose records all carry the
    key as their height, and whose key is the height of the block the batch
    was extracted from. *)
Definition savedUnderItsHeight (blockChan : list btcutil.Block) (e : Event)
  : Prop :=
  match e with
  | EvSave key batch =>
      batch <> [] /\
      Forall (fun chg => change.Height chg = key) batch /\
      exists block v v', block ∈ blockChan /\
        btcutil.Height block = key /\
        extractBlock v block = Done (v', batch)
  | _ => True
  end.

(** [changes[0].Height] *)
Definition batchKey (batch : list change.Change) : Z :=
  match batch with
  | chg0 :: _ => change.Height chg0
  | [] => 0
  end.

(** What the replay command does after the deletions: it opens the Change
    Log Store, calls [Load] on it and reads blocks of the ledger. *)
Definition readsOnly (e : Event) : Prop :=
  match e with
  | EvNewPebble dbPath => dbPath = repoPath (ChainRepoPebble cfg)
  | EvLoad _ | EvBlockByHeight _ => True
  | EvRemoveAll _ | EvSave _ _ => False
  end.

(** The most records a transaction can contribute: none for a coinbase,
    one per input and per output otherwise. *)
Definition capacity (tx : btcutil.Tx) : nat :=
  if blockchain.IsCoinBase tx then 0%nat
  else (length (btcutil.TxIn tx) + length (btcutil.TxOut tx))%nat.

(** [AddTxOuts] only touches the outpoints of the transaction it is given:
    a lookup at an outpoint of another transaction hash is as before. *)
Definition viewFrame : Prop :=
  forall v tx height op,
    wire.Hash op <> btcutil.TxHash tx ->
    blockchain.LookupEntry (blockchain.AddTxOuts v tx height) op
    = blockchain.LookupEntry v op.

(** The batch the Change Log Store holds for a height: the result of a
    [Load] without error, and nothing when [Load] returns an error. *)
Definition found (chainRepo : chainrepo.Repo) (height : Z) : list change.Change :=
  match (chainrepo.Load chainRepo height).2 with
  | None => (chainrepo.Load chainRepo height).1
  | Some _ => []
  end.

End Properties.

(** * The extractor: proofs *)

Section ExtractorFacts.

Context `{Dec : txscript.Decoder} `{Chg : change.Pkg} `{Bc : blockchain.Utxo}.

Lemma run_bind_Done {A B} (r : Run A) (k : A -> Run B) b :
  run_bind r k = Done b -> exists a, r = Done a /\ k a = Done b.
Proof. destruct r as [a|why]; simpl; [eauto | discriminate]. Qed.

Lemma copy_exact (dst src : bytes) :
  length src = length dst -> change.copy dst src = src.
Proof.
  intros Hlen. unfold change.copy. rewrite Hlen, Nat.min_id, drop_all.
  rewrite <- Hlen, firstn_all. apply app_nil_r.
Qed.

Lemma ZeroClaimID_length : length change.ZeroClaimID = change.ClaimIDSize.
Proof. apply length_replicate. Qed.

(** What [spendChange] appends, by cases of the decoder's results. *)
Lemma spendChange_Some height v txIn chg :
  spendChange height v txIn = Done (Some chg) ->
  exists e cs err,
    blockchain.LookupEntry v (wire.PreviousOutPoint txIn) = Some e /\
    txscript.DecodeClaimScript (blockchain.PkScript e) = (Some cs, err) /\
    chg = spendSwitch cs
            (change.mkChange change.ZeroType height (txscript.Name cs)
               change.ZeroClaimID (wire.PreviousOutPoint txIn) 0).
Proof.
  unfold spendChange. intros H.
  destruct (blockchain.LookupEntry v _) as [e|]; [|discriminate].
  destruct (txscript.DecodeClaimScript _) as [[cs|] [[]|]] eqn:Hd;
    try discriminate; inversion H; subst; eauto 6.
Qed.

Lemma createChange_Some height hash i txOut chg :
  createChange height hash i txOut = Done (Some chg) ->
  exists cs err,
    txscript.DecodeClaimScript (wire.PkScript txOut) = (Some cs, err) /\
    chg = createSwitch cs (wire.mkOutPoint hash (uint32 (Z.of_nat i)))
            (change.mkChange change.ZeroType height (txscript.Name cs)
               change.ZeroClaimID
               (wire.mkOutPoint hash (uint32 (Z.of_nat i)))
               (wire.Value txOut)).
Proof.
  unfold createChange. intros H.
  destruct (txscript.DecodeClaimScript _) as [[cs|] [[]|]] eqn:Hd;
    try discriminate; inversion H; subst; eauto.
Qed.

Lemma spendSwitch_fields cs chg :
  change.Height (spendSwitch cs chg) = change.Height chg /\
  change.OutPoint (spendSwitch cs chg) = change.OutPoint chg /\
  change.Amount (spendSwitch cs chg) = change.Amount chg /\
  change.Name (spendSwitch cs chg) = change.Name chg.
Proof. unfold spendSwitch. destruct (txscript.Opcode_ cs); auto. Qed.

Lemma createSwitch_fields cs op chg :
  change.Height (createSwitch cs op chg) = change.Height chg /\
  change.OutPoint (createSwitch cs op chg) = change.OutPoint chg /\
  change.Amount (createSwitch cs op chg) = change.Amount chg /\
  change.Name (createSwitch cs op chg) = change.Name chg.
Proof. unfold createSwitch. destruct (txscript.Opcode_ cs); auto. Qed.

Lemma spendSwitch_type cs chg :
  txscript.Opcode_ cs <> txscript.OP_other ->
  isSpend (change.Type_ (spendSwitch cs chg)) = true.
Proof. unfold spendSwitch. destruct (txscript.Opcode_ cs); simpl; congruence. Qed.

Lemma createSwitch_type cs op chg :
  txscript.Opcode_ cs <> txscript.OP_other ->
  isCreation (change.Type_ (createSwitch cs op chg)) = true.
Proof. unfold createSwitch. destruct (txscript.Opcode_ cs); simpl; congruence. Qed.

(** Every record the extractor makes carries the height it was given. *)
Lemma spendChange_height height v txIn chg :
  spendChange height v txIn = Done (Some chg) -> change.Height chg = height.
Proof.
  intros (e & cs & err & _ & _ & ->)%spendChange_Some.
  by rewrite (proj1 (spendSwitch_fields _ _)).
Qed.

Lemma createChange_height height hash i txOut chg :
  createChange height hash i txOut = Done (Some chg) ->
  change.Height chg = height.
Proof.
  intros (cs & err & _ & ->)%createChange_Some.
  by rewrite (proj1 (createSwitch_fields _ _ _)).
Qed.

(** The input loop only appends: its result is [changes] followed by what
    the inputs contribute, one record at most per input, in order. *)
Lemma spendChanges_Done height v txIns changes r :
  spendChanges height v txIns changes = Done r ->
  exists added,
    r = changes ++ added /\
    Forall (fun chg => exists txIn, txIn ∈ txIns /\
              spendChange height v txIn = Done (Some chg)) added.
Proof.
  revert changes. induction txIns as [|txIn rest IH]; simpl; intros changes H.
  - inversion H; subst. exists []. by rewrite app_nil_r.
  - apply run_bind_Done in H as (o & Ho & H). destruct o as [chg|].
    + apply IH in H as (added & -> & Hall). exists (chg :: added). split.
      * by rewrite <- app_assoc.
      * constructor; [exists txIn; split; [left | done] |].
        eapply Forall_impl; [exact Hall|]. intros c (t & Ht & Hc).
        exists t. split; [by right | done].
    + apply IH in H as (added & -> & Hall). exists added. split; [done|].
      eapply Forall_impl; [exact Hall|]. intros c (t & Ht & Hc).
      exists t. split; [by right | done].
Qed.

Lemma createChanges_Done height hash i txOuts changes r :
  createChanges height hash i txOuts changes = Done r ->
  exists added,
    r = changes ++ added /\
    Forall (fun chg => exists (j : nat) txOut, txOuts !! j = Some txOut /\
              createChange height hash (i + j) txOut = Done (Some chg)) added.
Proof.
  revert i changes.
  induction txOuts as [|txOut rest IH]; simpl; intros i changes H.
  - inversion H; subst. exists []. by rewrite app_nil_r.
  - apply run_bind_Done in H as (o & Ho & H).
    assert (Hshift : forall added,
      Forall (fun chg => exists (j : nat) txOut0, rest !! j = Some txOut0 /\
                createChange height hash (S i + j) txOut0 = Done (Some chg)) added ->
      Forall (fun chg => exists (j : nat) txOut0,
                (txOut :: rest) !! j = Some txOut0 /\
                createChange height hash (i + j) txOut0 = Done (Some chg)) added).
    { intros added Hall. eapply Forall_impl; [exact Hall|].
      intros c (j & t & Hj & Hc). exists (S j), t. split; [done|].
      by replace (i + S j)%nat with (S i + j)%nat by lia. }
    destruct o as [chg|].
    + apply IH in H as (added & -> & Hall). exists (chg :: added). split.
      * by rewrite <- app_assoc.
      * constructor; [|by apply Hshift].
        exists 0%nat, txOut. split; [done|]. by rewrite Nat.add_0_r.
    + apply IH in H as (added & -> & Hall). exists added. split; [done|].
      by apply Hshift.
Qed.

(** One transaction: the view it leaves is the view with the outputs
    registered, and [changes] grows by the spends of the inputs followed
    by the creations of the outputs, both made against that view. *)
Lemma processTx_Done height tx v changes v' r :
  processTx height tx (v, changes) = Done (v', r) ->
  v' = blockchain.AddTxOuts v tx height /\
  exists spent created,
    r = changes ++ spent ++ created /\
    Forall (fun chg => exists txIn, txIn ∈ btcutil.TxIn tx /\
              spendChange height v' txIn = Done (Some chg)) spent /\
    Forall (fun chg => exists (j : nat) txOut,
              btcutil.TxOut tx !! j = Some txOut /\
              createChange height (btcutil.TxHash tx) j txOut
                = Done (Some chg)) created.
Proof.
  unfold processTx. simpl. intros H.
  destruct (blockchain.IsCoinBase tx).
  - inversion H; subst. split; [done|]. exists [], [].
    by rewrite !app_nil_r.
  - apply run_bind_Done in H as (c1 & H1 & H).
    apply run_bind_Done in H as (c2 & H2 & H).
    inversion H; subst. split; [done|].
    apply spendChanges_Done in H1 as (spent & -> & Hs).
    apply createChanges_Done in H2 as (created & -> & Hc).
    exists spent, created. by rewrite <- app_assoc.
Qed.

Lemma spendChange_spendSide height v tx txIn chg :
  claimOpcodes ->
  txIn ∈ btcutil.TxIn tx ->
  spendChange height v txIn = Done (Some chg) ->
  spendSide tx chg.
Proof.
  intros Hop Hin (e & cs & err & _ & Hd & ->)%spendChange_Some. split.
  - apply spendSwitch_type. eapply Hop, Hd.
  - exists txIn. split; [done|].
    by rewrite (proj1 (proj2 (spendSwitch_fields _ _))).
Qed.

Lemma createChange_creationSide height tx (j : nat) txOut chg :
  claimOpcodes ->
  btcutil.TxOut tx !! j = Some txOut ->
  createChange height (btcutil.TxHash tx) j txOut = Done (Some chg) ->
  creationSide tx chg.
Proof.
  intros Hop Hj (cs & err & Hd & ->)%createChange_Some. split.
  - apply createSwitch_type. eapply Hop, Hd.
  - exists j, txOut. split; [done|].
    destruct (createSwitch_fields cs
      (wire.mkOutPoint (btcutil.TxHash tx) (uint32 (Z.of_nat j)))
      (change.mkChange change.ZeroType height (txscript.Name cs)
         change.ZeroClaimID
         (wire.mkOutPoint (btcutil.TxHash tx) (uint32 (Z.of_nat j)))
         (wire.Value txOut))) as (_ & -> & -> & _).
    done.
Qed.

(** The contribution of each transaction of a list, in order. *)
Lemma processTxs_Done height txs v changes v' r :
  claimOpcodes ->
  processTxs height txs (v, changes) = Done (v', r) ->
  exists parts : list (list change.Change * list change.Change),
    r = changes ++ concat (map (fun p => p.1 ++ p.2) parts) /\
    Forall2 (fun tx p => Forall (spendSide tx) p.1 /\
                         Forall (creationSide tx) p.2) txs parts.
Proof.
  intros Hop. revert v changes.
  induction txs as [|tx rest IH]; simpl; intros v changes H.
  - inversion H; subst. exists []. simpl. by rewrite app_nil_r.
  - apply run_bind_Done in H as ([v1 c1] & H1 & H).
    apply processTx_Done in H1 as (-> & spent & created & -> & Hs & Hc).
    apply IH in H as (parts & -> & Hparts).
    exists ((spent, created) :: parts). split.
    + simpl. by rewrite <- !app_assoc.
    + constructor; [|done]. simpl. split.
      * eapply Forall_impl; [exact Hs|]. intros c (t & Ht & Hsc).
        eapply spendChange_spendSide; eauto.
      * eapply Forall_impl; [exact Hc|]. intros c (j & t & Hj & Hcc).
        eapply createChange_creationSide; eauto.
Qed.

(** ** Heights of the records of a batch *)

Lemma processTx_heights height tx v changes v' r :
  Forall (fun chg => change.Height chg = height) changes ->
  processTx height tx (v, changes) = Done (v', r) ->
  Forall (fun chg => change.Height chg = height) r.
Proof.
  intros Hall (-> & spent & created & -> & Hs & Hc)%processTx_Done.
  apply Forall_app; split; [done|]. apply Forall_app; split.
  - eapply Forall_impl; [exact Hs|]. intros c (t & _ & Hsc).
    eapply spendChange_height, Hsc.
  - eapply Forall_impl; [exact Hc|]. intros c (j & t & _ & Hcc).
    eapply createChange_height, Hcc.
Qed.

Lemma processTxs_heights height txs v changes v' r :
  Forall (fun chg => change.Height chg = height) changes ->
  processTxs height txs (v, changes) = Done (v', r) ->
  Forall (fun chg => change.Height chg = height) r.
Proof.
  revert v changes. induction txs as [|tx rest IH]; simpl; intros v changes Hall H.
  - by inversion H; subst.
  - apply run_bind_Done in H as ([v1 c1] & H1 & H).
    eapply IH; [|exact H]. eapply processTx_heights; eauto.
Qed.

Lemma extractBlock_heights v block v' changes :
  extractBlock v block = Done (v', changes) ->
  Forall (fun chg => change.Height chg = btcutil.Height block) changes.
Proof. apply processTxs_heights. constructor. Qed.

(** C2. For every block the extractor completes on, the batch is the
    concatenation, over the transactions of the block in block order, of
    the contribution of each transaction; and the contribution of a
    transaction is its spend-side changes (SpendClaim and SpendSupport
    records made from its inputs) followed by its creation-side changes
    (AddClaim, UpdateClaim and AddSupport records made from its
    outputs). *)
Theorem extractBlock_spends_before_creations v block v' batch :
  claimOpcodes ->
  extractBlock v block = Done (v', batch) ->
  exists parts : list (list change.Change * list change.Change),
    batch = concat (map (fun p => p.1 ++ p.2) parts) /\
    Forall2 (fun tx p => Forall (spendSide tx) p.1 /\
                         Forall (creationSide tx) p.2)
      (btcutil.Transactions block) parts.
Proof.
  intros Hop H. unfold extractBlock in H.
  apply processTxs_Done in H as (parts & -> & Hparts); [|done].
  by exists parts.
Qed.

End ExtractorFacts.

Section ExtractorClaims.

Context `{Dec : txscript.Decoder} `{Chg : change.Pkg} `{Bc : blockchain.Utxo}.

(** The record made for an input whose previous output decodes to [cs]. *)
Lemma spendChange_claim height v txIn e cs err :
  blockchain.LookupEntry v (wire.PreviousOutPoint txIn) = Some e ->
  txscript.DecodeClaimScript (blockchain.PkScript e) = (Some cs, err) ->
  err <> Some txscript.ErrNotClaimScript ->
  spendChange height v txIn
  = Done (Some (spendSwitch cs
                  (change.mkChange change.ZeroType height (txscript.Name cs)
                     change.ZeroClaimID (wire.PreviousOutPoint txIn) 0))).
Proof.
  intros Hl Hd Herr. unfold spendChange. rewrite Hl, Hd.
  destruct err as [[]|]; done.
Qed.

(** A record made for an input of the list is in the result of the loop. *)
Lemma spendChanges_elem height v txIns changes r txIn chg :
  spendChanges height v txIns changes = Done r ->
  txIn ∈ txIns ->
  spendChange height v txIn = Done (Some chg) ->
  chg ∈ r.
Proof.
  revert changes. induction txIns as [|t rest IH]; simpl; intros changes H Hin Hc.
  - by apply elem_of_nil in Hin.
  - apply run_bind_Done in H as (o & Ho & H).
    apply elem_of_cons in Hin as [->|Hin].
    + rewrite Hc in Ho. inversion Ho; subst.
      apply spendChanges_Done in H as (added & -> & _).
      apply elem_of_app. left. apply elem_of_app. right. by left.
    + destruct o; eapply IH; eauto.
Qed.

Lemma createChanges_prefix height hash i txOuts changes r chg :
  createChanges height hash i txOuts changes = Done r ->
  chg ∈ changes -> chg ∈ r.
Proof.
  intros (added & -> & _)%createChanges_Done Hin. apply elem_of_app. by left.
Qed.

(** C3. For every input of a non-coinbase transaction whose previous
    output resolves in the view and decodes as a claim script, the batch
    holds a record for it, classified by the opcode of the script: for
    OP_CLAIMNAME a SpendClaim whose ClaimID is [NewClaimID] of the spent
    outpoint; for OP_UPDATECLAIM a SpendClaim and for OP_SUPPORTCLAIM a
    SpendSupport, both with the ClaimID of the script (which has the fixed
    width of a ClaimID) unchanged. The record carries the height of the block, the
    name of the script and the spent outpoint. *)
Theorem spend_classified_by_opcode height tx v changes v' r txIn e cs :
  blockchain.IsCoinBase tx = false ->
  processTx height tx (v, changes) = Done (v', r) ->
  txIn ∈ btcutil.TxIn tx ->
  blockchain.LookupEntry (blockchain.AddTxOuts v tx height)
    (wire.PreviousOutPoint txIn) = Some e ->
  txscript.DecodeClaimScript (blockchain.PkScript e) = (Some cs, None) ->
  (txscript.Opcode_ cs <> txscript.OP_CLAIMNAME ->
   length (txscript.ClaimID cs) = change.ClaimIDSize) ->
  let op := wire.PreviousOutPoint txIn in
  match txscript.Opcode_ cs with
  | txscript.OP_CLAIMNAME =>
      change.mkChange change.SpendClaim height (txscript.Name cs)
        (change.NewClaimID op) op 0 ∈ r
  | txscript.OP_UPDATECLAIM =>
      change.mkChange change.SpendClaim height (txscript.Name cs)
        (txscript.ClaimID cs) op 0 ∈ r
  | txscript.OP_SUPPORTCLAIM =>
      change.mkChange change.SpendSupport height (txscript.Name cs)
        (txscript.ClaimID cs) op 0 ∈ r
  | txscript.OP_other => True
  end.
Proof.
  intros Hcb H Hin Hl Hd Hlen op.
  pose proof (spendChange_claim height _ txIn e cs None Hl Hd) as Hsc.
  unfold processTx in H. simpl in H. rewrite Hcb in H.
  apply run_bind_Done in H as (c1 & H1 & H).
  apply run_bind_Done in H as (c2 & H2 & H). inversion H; subst.
  assert (Hr : forall chg,
    spendChange height (blockchain.AddTxOuts v tx height) txIn = Done (Some chg) ->
    chg ∈ r).
  { intros chg Hchg. eapply createChanges_prefix; [exact H2|].
    eapply spendChanges_elem; eauto. }
  specialize (Hsc ltac:(done)). apply Hr in Hsc. revert Hsc Hlen.
  unfold spendSwitch. simpl.
  destruct (txscript.Opcode_ cs); intros Hsc Hlen; try done;
    rewrite copy_exact in Hsc by (rewrite ZeroClaimID_length; by apply Hlen);
    done.
Qed.

(** C6, as the code has it. For every transaction, coinbase or not, the
    whole transaction is handed to the registration of the view before any
    of its inputs is resolved: the view the transaction leaves is the
    incoming view with the outputs registered; the run depends on the
    incoming view only through that registered view; and an input that the
    registered view does not resolve stops the run. No test on the scripts
    of the outputs comes before the registration. *)
Theorem outputs_registered_before_inputs height tx v changes :
  (forall v' r, processTx height tx (v, changes) = Done (v', r) ->
     v' = blockchain.AddTxOuts v tx height) /\
  (forall v2, blockchain.AddTxOuts v2 tx height = blockchain.AddTxOuts v tx height ->
     processTx height tx (v2, changes) = processTx height tx (v, changes)) /\
  (blockchain.IsCoinBase tx = true ->
     processTx height tx (v, changes)
     = Done (blockchain.AddTxOuts v tx height, changes)) /\
  (blockchain.IsCoinBase tx = false ->
   forall txIn, txIn ∈ btcutil.TxIn tx ->
     blockchain.LookupEntry (blockchain.AddTxOuts v tx height)
       (wire.PreviousOutPoint txIn) = None ->
     exists why, processTx height tx (v, changes) = Panic why).
Proof.
  repeat split.
  - intros v' r H. by apply processTx_Done in H as [-> _].
  - intros v2 Hv. unfold processTx. simpl. by rewrite Hv.
  - intros Hcb. unfold processTx. simpl. by rewrite Hcb.
  - intros Hcb txIn Hin Hl. unfold processTx. simpl. rewrite Hcb.
    destruct (spendChanges height _ (btcutil.TxIn tx) changes) as [c1|why] eqn:H1;
      [|by eexists].
    exfalso. clear Hcb. revert changes c1 H1.
    induction (btcutil.TxIn tx) as [|t rest IH]; intros changes c1 H1.
    + by apply elem_of_nil in Hin.
    + simpl in H1. apply run_bind_Done in H1 as (o & Ho & H1).
      apply elem_of_cons in Hin as [->|Hin].
      * unfold spendChange in Ho. by rewrite Hl in Ho.
      * destruct o; eapply IH; eauto.
Qed.

End ExtractorClaims.

Section ExtractorFailures.

Context `{Dec : txscript.Decoder} `{Chg : change.Pkg} `{Bc : blockchain.Utxo}.

(** A loop that completes has completed every iteration. *)
Lemma spendChanges_each height v txIns changes r txIn :
  spendChanges height v txIns changes = Done r ->
  txIn ∈ txIns ->
  exists o, spendChange height v txIn = Done o.
Proof.
  revert changes. induction txIns as [|t rest IH]; simpl; intros changes H Hin.
  - by apply elem_of_nil in Hin.
  - apply run_bind_Done in H as (o & Ho & H).
    apply elem_of_cons in Hin as [->|Hin]; [by eexists|].
    destruct o; eapply IH; eauto.
Qed.

Lemma createChanges_each height hash i txOuts changes r txOut :
  createChanges height hash i txOuts changes = Done r ->
  txOut ∈ txOuts ->
  exists (j : nat) o, createChange height hash j txOut = Done o.
Proof.
  revert i changes. induction txOuts as [|t rest IH]; simpl; intros i changes H Hin.
  - by apply elem_of_nil in Hin.
  - apply run_bind_Done in H as (o & Ho & H).
    apply elem_of_cons in Hin as [->|Hin]; [by eexists _, _|].
    destruct o; eapply IH; eauto.
Qed.

Lemma processTxs_each height txs st st' tx :
  processTxs height txs st = Done st' ->
  tx ∈ txs ->
  exists st0 st1, processTx height tx st0 = Done st1.
Proof.
  revert st. induction txs as [|t rest IH]; simpl; intros st H Hin.
  - by apply elem_of_nil in Hin.
  - apply run_bind_Done in H as (s1 & H1 & H).
    apply elem_of_cons in Hin as [->|Hin]; [by eexists _, _|].
    eapply IH; eauto.
Qed.

Lemma spendChange_malformed height v txIn e err :
  nilOnError ->
  blockchain.LookupEntry v (wire.PreviousOutPoint txIn) = Some e ->
  (txscript.DecodeClaimScript (blockchain.PkScript e)).2 = Some err ->
  err <> txscript.ErrNotClaimScript ->
  spendChange height v txIn = Panic (NilClaimScript (blockchain.PkScript e)).
Proof.
  intros Hnil Hl Hd Herr. unfold spendChange. rewrite Hl.
  destruct (txscript.DecodeClaimScript _) as [cs o] eqn:Hdec. simpl in Hd. subst o.
  rewrite (Hnil _ _ _ Hdec). by destruct err.
Qed.

Lemma createChange_malformed height hash i txOut err :
  nilOnError ->
  (txscript.DecodeClaimScript (wire.PkScript txOut)).2 = Some err ->
  err <> txscript.ErrNotClaimScript ->
  createChange height hash i txOut = Panic (NilClaimScript (wire.PkScript txOut)).
Proof.
  intros Hnil Hd Herr. unfold createChange.
  destruct (txscript.DecodeClaimScript _) as [cs o] eqn:Hdec. simpl in Hd. subst o.
  rewrite (Hnil _ _ _ Hdec). by destruct err.
Qed.

(** C7. A script that does not decode as a claim script (the decoder
    returns [ErrNotClaimScript]) is skipped, on the input side and on the
    output side: the iteration ends without a record and without a
    failure. A script that is claim-shaped but malformed (the decoder
    returns another error, and with it a nil script) is fatal: the
    transaction of an input whose previous output carries it does not
    complete, the extraction of a block with such an output in a
    non-coinbase transaction does not complete, and a block whose extraction
    does not complete sends no batch. *)
Theorem not_claim_skipped_malformed_fatal :
  nilOnError ->
  (forall height v txIn e cs,
     blockchain.LookupEntry v (wire.PreviousOutPoint txIn) = Some e ->
     txscript.DecodeClaimScript (blockchain.PkScript e)
       = (cs, Some txscript.ErrNotClaimScript) ->
     spendChange height v txIn = Done None) /\
  (forall height hash i txOut cs,
     txscript.DecodeClaimScript (wire.PkScript txOut)
       = (cs, Some txscript.ErrNotClaimScript) ->
     createChange height hash i txOut = Done None) /\
  (forall height tx v changes txIn e err,
     blockchain.IsCoinBase tx = false ->
     txIn ∈ btcutil.TxIn tx ->
     blockchain.LookupEntry (blockchain.AddTxOuts v tx height)
       (wire.PreviousOutPoint txIn) = Some e ->
     (txscript.DecodeClaimScript (blockchain.PkScript e)).2 = Some err ->
     err <> txscript.ErrNotClaimScript ->
     exists why, processTx height tx (v, changes) = Panic why) /\
  (forall v block tx txOut err,
     tx ∈ btcutil.Transactions block ->
     blockchain.IsCoinBase tx = false ->
     txOut ∈ btcutil.TxOut tx ->
     (txscript.DecodeClaimScript (wire.PkScript txOut)).2 = Some err ->
     err <> txscript.ErrNotClaimScript ->
     exists why, extractBlock v block = Panic why) /\
  (forall v block rest sent why,
     extractBlock v block = Panic why ->
     processBlockLoop v (block :: rest) sent = (sent, Panic why)).
Proof.
  intros Hnil. repeat split.
  - intros height v txIn e cs Hl Hd. unfold spendChange. rewrite Hl, Hd. by destruct cs.
  - intros height hash i txOut cs Hd. unfold createChange. rewrite Hd. by destruct cs.
  - intros height tx v changes txIn e err Hcb Hin Hl Hd Herr.
    destruct (processTx height tx (v, changes)) as [[v' r]|why] eqn:H; [|by eexists].
    exfalso. unfold processTx in H. simpl in H. rewrite Hcb in H.
    apply run_bind_Done in H as (c1 & H1 & _).
    destruct (spendChanges_each _ _ _ _ _ _ H1 Hin) as [o Ho].
    by rewrite (spendChange_malformed _ _ _ _ _ Hnil Hl Hd Herr) in Ho.
  - intros v block tx txOut err Htx Hcb Hout Hd Herr.
    destruct (extractBlock v block) as [st'|why] eqn:H; [|by eexists].
    exfalso. unfold extractBlock in H.
    destruct (processTxs_each _ _ _ _ _ H Htx) as (st0 & st1 & Htx1).
    unfold processTx in Htx1. rewrite Hcb in Htx1.
    apply run_bind_Done in Htx1 as (c1 & _ & H2).
    apply run_bind_Done in H2 as (c2 & H2 & _).
    destruct (createChanges_each _ _ _ _ _ _ _ H2 Hout) as (j & o & Ho).
    by rewrite (createChange_malformed _ _ _ _ _ Hnil Hd Herr) in Ho.
  - intros v block rest sent why H. simpl. by rewrite H.
Qed.

End ExtractorFailures.

(** * The converter pipeline: proofs *)

Section ConverterFacts.

Context `{Dec : txscript.Decoder} `{Chg : change.Pkg} `{Bc : blockchain.Utxo}.
Context `{Tr : claimtrie.Trie} `{Pb : chainrepo.Pebble} `{Ch : ledger.Chain}.
Context `{En : !Env}.

Lemma processBlockLoop_sent v blockChan sent sent' out :
  processBlockLoop v blockChan sent = (sent', out) ->
  exists added, sent' = sent ++ added /\ Forall (extractedFrom blockChan) added.
Proof.
  revert v sent. induction blockChan as [|block rest IH]; simpl; intros v sent H.
  - inversion H; subst. exists []. by rewrite app_nil_r.
  - assert (Hweak : forall added,
      Forall (extractedFrom rest) added ->
      Forall (extractedFrom (block :: rest)) added).
    { intros added Hadded. eapply Forall_impl; [exact Hadded|].
      intros b (Hne & blk & v0 & v1 & Hin & Hex). split; [done|].
      exists blk, v0, v1. split; [by right | done]. }
    destruct (extractBlock v block) as [[v' changes]|why] eqn:Hex.
    + destruct (length changes =? 0)%nat eqn:Hlen; simpl in H.
      * apply IH in H as (added & -> & Hall). exists added. auto.
      * apply IH in H as (added & -> & Hall). exists (changes :: added). split.
        -- by rewrite <- app_assoc.
        -- constructor; [|auto]. split.
           ++ intros ->. simpl in Hlen. discriminate.
           ++ exists block, v, v'. split; [by left | done].
    + inversion H; subst. exists []. by rewrite app_nil_r.
Qed.

Lemma saveChangesLoop_trace chainRepo changesChan tr :
  Forall (fun batch => batch <> []) changesChan ->
  exists chainRepo' (k : nat),
    saveChangesLoop chainRepo changesChan tr
    = Done (chainRepo',
            tr ++ map (fun batch => EvSave (batchKey batch) batch)
                      (take k changesChan)).
Proof.
  revert chainRepo tr.
  induction changesChan as [|batch rest IH]; intros chainRepo tr Hall.
  - exists chainRepo, 0%nat. simpl. by rewrite app_nil_r.
  - apply Forall_cons in Hall as [Hne Hall].
    destruct batch as [|chg0 more]; [done|]. simpl.
    destruct (chainrepo.Save chainRepo (change.Height chg0) (chg0 :: more))
      as [repo1 [e|]] eqn:Hs; simpl.
    + by exists repo1, 1%nat.
    + destruct (IH repo1 (tr ++ [EvSave (change.Height chg0) (chg0 :: more)]) Hall)
        as (repo' & k & ->).
      exists repo', (S k). simpl. by rewrite <- app_assoc.
Qed.

Lemma extractedFrom_saved blockChan batch :
  extractedFrom blockChan batch ->
  savedUnderItsHeight blockChan (EvSave (batchKey batch) batch).
Proof.
  intros (Hne & block & v & v' & Hin & Hex). simpl.
  pose proof (extractBlock_heights _ _ _ _ Hex) as Hh.
  assert (Hkey : batchKey batch = btcutil.Height block).
  { destruct batch as [|chg0 more]; [done|]. simpl.
    by apply Forall_cons in Hh as [-> _]. }
  rewrite Hkey. split; [done|]. split; [done|].
  by exists block, v, v'.
Qed.

(** C8. Whatever part of the batches sent by the extract stage the persist
    stage receives, it does not fail on indexing a batch, and every call of
    [Save] it makes has a batch that is not empty, whose records all carry
    one height, the height of the block the batch was extracted from, and
    that height is the key of the call; the calls are made for the batches
    received, in order, under [changes[0].Height]. *)
Theorem saved_batches_keyed_by_height blockChan sent out received :
  processBlock blockChan = (sent, out) ->
  received `prefix_of` sent ->
  exists r (k : nat),
    saveChanges received = Done r /\
    Forall (savedUnderItsHeight blockChan) r.2 /\
    saves r.2 = map (fun batch => (batchKey batch, batch)) (take k received).
Proof.
  intros Hp [more ->]. unfold processBlock in Hp.
  apply processBlockLoop_sent in Hp as (added & Heq & Hall). simpl in Heq.
  subst added. apply Forall_app in Hall as [Hall _].
  unfold saveChanges.
  destruct (chainrepo_NewPebble chainRepoPath) as [chainRepo|].
  - destruct (saveChangesLoop_trace chainRepo received [EvNewPebble chainRepoPath])
      as (repo' & k & ->).
    { eapply Forall_impl; [exact Hall|]. by intros b [Hne _]. }
    simpl. eexists _, k. split; [done|]. simpl. split.
    + constructor; [done|]. apply Forall_map.
      eapply Forall_impl; [by apply Forall_take|].
      apply extractedFrom_saved.
    + unfold saves. simpl. clear. induction (take k received) as [|b l IH]; simpl; [done|].
      f_equal. exact IH.
  - eexists _, 0%nat. split; [done|]. simpl. split; [by constructor|done].
Qed.

End ConverterFacts.

(** * The extractor as a machine: proofs *)

Section MachineFacts.

Context `{Dec : txscript.Decoder} `{Chg : change.Pkg} `{Bc : blockchain.Utxo}.

Lemma step_deterministic height k k1 k2 :
  step height k k1 -> step height k k2 -> k1 = k2.
Proof.
  intros H1 H2. inversion H1; subst; inversion H2; subst; congruence.
Qed.

Lemma result_final height k k' r : result k = Some r -> ~ step height k k'.
Proof. intros Hr Hs. inversion Hs; subst; discriminate. Qed.

Lemma steps_trans height k1 k2 k3 :
  steps height k1 k2 -> steps height k2 k3 -> steps height k1 k3.
Proof.
  induction 1 as [|ka kb kc Hs Hss IH]; [done|].
  intros H. eapply steps_step; eauto.
Qed.

Lemma steps_one height k1 k2 : step height k1 k2 -> steps height k1 k2.
Proof. intros H. eapply steps_step; [exact H | apply steps_refl]. Qed.

(** Two runs from one configuration end with one result. *)
Lemma steps_result_unique height k k1 k2 r1 r2 :
  steps height k k1 -> result k1 = Some r1 ->
  steps height k k2 -> result k2 = Some r2 ->
  r1 = r2.
Proof.
  induction 1 as [k|k ka kb Hs Hss IH]; intros Hr1 H2 Hr2.
  - inversion H2 as [|? kc ? Hs2 Hss2]; subst; [congruence|].
    by destruct (result_final _ _ _ _ Hr1 Hs2).
  - inversion H2 as [|? kc ? Hs2 Hss2]; subst.
    + by destruct (result_final _ _ _ _ Hr2 Hs).
    + rewrite <- (step_deterministic _ _ _ _ Hs Hs2) in Hss2. by apply IH.
Qed.

(** The machine runs the loops of [processBlock]. *)
Lemma steps_spendChanges height tx txs v txIns c :
  match spendChanges height v txIns c with
  | Done c' => steps height (mkConf (AtTxIns txIns tx txs) v c)
                            (mkConf (AtTxIns [] tx txs) v c')
  | Panic why => exists c', steps height (mkConf (AtTxIns txIns tx txs) v c)
                                         (mkConf (Crashed why) v c')
  end.
Proof.
  revert c. induction txIns as [|txIn rest IH]; intros c; simpl.
  - apply steps_refl.
  - destruct (spendChange height v txIn) as [[chg|]|why] eqn:Hs; simpl.
    + specialize (IH (c ++ [chg])).
      destruct (spendChanges height v rest (c ++ [chg])).
      * eapply steps_step; [by apply step_in_append | exact IH].
      * destruct IH as [c' IH]. exists c'.
        eapply steps_step; [by apply step_in_append | exact IH].
    + specialize (IH c). destruct (spendChanges height v rest c).
      * eapply steps_step; [by apply step_in_skip | exact IH].
      * destruct IH as [c' IH]. exists c'.
        eapply steps_step; [by apply step_in_skip | exact IH].
    + exists c. by apply steps_one, step_in_panic.
Qed.

Lemma steps_createChanges height tx txs v i txOuts c :
  match createChanges height (btcutil.TxHash tx) i txOuts c with
  | Done c' => steps height (mkConf (AtTxOuts i txOuts tx txs) v c)
                            (mkConf (AtTxs txs) v c')
  | Panic why => exists c', steps height (mkConf (AtTxOuts i txOuts tx txs) v c)
                                         (mkConf (Crashed why) v c')
  end.
Proof.
  revert i c. induction txOuts as [|txOut rest IH]; intros i c; simpl.
  - apply steps_one, step_out_done.
  - destruct (createChange height (btcutil.TxHash tx) i txOut)
      as [[chg|]|why] eqn:Hs; simpl.
    + specialize (IH (S i) (c ++ [chg])).
      destruct (createChanges height _ (S i) rest (c ++ [chg])).
      * eapply steps_step; [by apply step_out_append | exact IH].
      * destruct IH as [c' IH]. exists c'.
        eapply steps_step; [by apply step_out_append | exact IH].
    + specialize (IH (S i) c).
      destruct (createChanges height _ (S i) rest c).
      * eapply steps_step; [by apply step_out_skip | exact IH].
      * destruct IH as [c' IH]. exists c'.
        eapply steps_step; [by apply step_out_skip | exact IH].
    + exists c. by apply steps_one, step_out_panic.
Qed.

Lemma steps_processTxs height txs v c :
  match processTxs height txs (v, c) with
  | Done st => steps height (mkConf (AtTxs txs) v c) (mkConf (AtTxs []) st.1 st.2)
  | Panic why => exists v' c', steps height (mkConf (AtTxs txs) v c)
                                            (mkConf (Crashed why) v' c')
  end.
Proof.
  revert v c. induction txs as [|tx rest IH]; intros v c; simpl.
  - apply steps_refl.
  - unfold processTx. simpl.
    destruct (blockchain.IsCoinBase tx) eqn:Hcb; simpl.
    + specialize (IH (blockchain.AddTxOuts v tx height) c).
      destruct (processTxs height rest _).
      * eapply steps_step; [by apply step_coinbase | exact IH].
      * destruct IH as (v' & c' & IH). exists v', c'.
        eapply steps_step; [by apply step_coinbase | exact IH].
    + pose proof (steps_spendChanges height tx rest
                    (blockchain.AddTxOuts v tx height) (btcutil.TxIn tx) c) as Hin.
      destruct (spendChanges height _ (btcutil.TxIn tx) c) as [c1|why]; simpl.
      * pose proof (steps_createChanges height tx rest
                      (blockchain.AddTxOuts v tx height) 0 (btcutil.TxOut tx) c1)
          as Hout.
        assert (Hhead : steps height (mkConf (AtTxs (tx :: rest)) v c)
                  (mkConf (AtTxOuts 0 (btcutil.TxOut tx) tx rest)
                     (blockchain.AddTxOuts v tx height) c1)).
        { eapply steps_step; [by apply step_tx|].
          eapply steps_trans; [exact Hin|]. apply steps_one, step_in_done. }
        destruct (createChanges height _ 0 (btcutil.TxOut tx) c1) as [c2|why]; simpl.
        -- specialize (IH (blockchain.AddTxOuts v tx height) c2).
           destruct (processTxs height rest _).
           ++ eapply steps_trans; [exact Hhead|].
              eapply steps_trans; [exact Hout | exact IH].
           ++ destruct IH as (v' & c' & IH). exists v', c'.
              eapply steps_trans; [exact Hhead|].
              eapply steps_trans; [exact Hout | exact IH].
        -- destruct Hout as [c' Hout]. eexists _, c'.
           eapply steps_trans; [exact Hhead | exact Hout].
      * destruct Hin as [c' Hin]. eexists _, c'.
        eapply steps_step; [by apply step_tx | exact Hin].
Qed.

(** The extractor always ends, and [extractBlock] is where it ends. *)
Lemma runs_extractBlock v block : runs v block (extractBlock v block).
Proof.
  unfold runs, extractBlock.
  pose proof (steps_processTxs (btcutil.Height block)
                (btcutil.Transactions block) v []) as H.
  destruct (processTxs _ _ _) as [[v' c']|why].
  - eexists. split; [exact H | reflexivity].
  - destruct H as (v' & c' & H). eexists. split; [exact H | reflexivity].
Qed.

(** C10. Extraction is deterministic: two runs of the extractor on one
    block from one state of the view end alike, with the same view and the
    same sequence of Change records in the same order, or with the same
    panic; and that common end is the value of [extractBlock]. *)
Theorem extraction_deterministic v block r1 r2 :
  runs v block r1 -> runs v block r2 ->
  r1 = r2 /\ r1 = extractBlock v block.
Proof.
  intros (k1 & Hs1 & Hr1) (k2 & Hs2 & Hr2).
  destruct (runs_extractBlock v block) as (k3 & Hs3 & Hr3). split.
  - exact (steps_result_unique _ _ _ _ _ _ Hs1 Hr1 Hs2 Hr2).
  - exact (steps_result_unique _ _ _ _ _ _ Hs1 Hr1 Hs3 Hr3).
Qed.

End MachineFacts.

(** * The replay engine: proofs *)

Section ReplayFacts.

Context `{Tr : claimtrie.Trie} `{Pb : chainrepo.Pebble} `{Ch : ledger.Chain}.
Context `{En : !Env}.

Lemma int32_id z : is_int32 z -> int32 z = z.
Proof.
  unfold is_int32, MinInt32, MaxInt32, int32. intros H.
  rewrite Z.mod_small; lia.
Qed.

Lemma advance_S k ht : advance (S k) ht = advance k (int32 (ht + 1)).
Proof. unfold advance. by rewrite Nat.iter_succ_r. Qed.

(** While the counter stays in range, [k] increments add [k]. *)
Lemma advance_in_range k ht :
  is_int32 ht -> is_int32 (ht + Z.of_nat k) -> advance k ht = ht + Z.of_nat k.
Proof.
  revert ht. induction k as [|k IH]; intros ht Hlo Hhi.
  - unfold advance. simpl. lia.
  - rewrite advance_S.
    assert (Hnext : is_int32 (ht + 1)) by (unfold is_int32 in *; lia).
    rewrite (int32_id _ Hnext). rewrite IH; [lia | done |].
    by replace (ht + 1 + Z.of_nat k) with (ht + Z.of_nat (S k)) by lia.
Qed.

(** [k + m] iterations are [k] iterations followed, when none of them
    returned, by [m] more. *)
Lemma replayLoop_split chainRepo chain k m ht ct tr :
  replayLoop chainRepo chain (k + m) ht ct tr =
  match replayLoop chainRepo chain k ht ct tr with
  | mkReplayed (Some ct') tr' None =>
      replayLoop chainRepo chain m (advance k ht) ct' tr'
  | r => r
  end.
Proof.
  revert ht ct tr. induction k as [|k IH]; intros ht ct tr; [done|].
  rewrite advance_S. simpl.
  destruct (chainrepo.Load chainRepo (int32 (ht + 1))) as [changes [[]|]]; simpl;
    try done;
    (destruct (applyChanges ct changes) as [ct1 [e|]]; simpl; [done|];
     destruct (appendBlock ct1 chain) as [[ct2 ev] [e|]]; simpl; [done|];
     apply IH).
Qed.

(** One iteration whose commitment hash differs from the hash of the
    header: the loop returns, whatever number of iterations is left. *)
Lemma replayLoop_mismatch chainRepo chain n ht ct tr changes e ct1 ct2 block :
  chainrepo.Load chainRepo (int32 (ht + 1)) = (changes, e) ->
  e <> Some chainrepo.ErrOther ->
  applyChanges ct changes = (ct1, None) ->
  claimtrie.AppendBlock ct1 = (ct2, false) ->
  ledger.BlockByHeight chain (claimtrie.Height ct2) = Some block ->
  claimtrie.MerkleHash ct2 <> btcutil.ClaimTrie block ->
  replayLoop chainRepo chain (S n) ht ct tr
  = mkReplayed (Some ct2)
      (tr ++ [EvLoad (int32 (ht + 1))] ++ [EvBlockByHeight (claimtrie.Height ct2)])
      (Some (ErrAppendBlock
               (ErrHashMismatched (claimtrie.Height ct2)
                  (btcutil.ClaimTrie block) (claimtrie.MerkleHash ct2)))).
Proof.
  intros Hl He Ha Hb Hblk Hne. simpl. rewrite Hl. simpl.
  assert (Hgo : forall X (x y : X),
    match e with
    | Some chainrepo.ErrOther => x
    | Some chainrepo.ErrNotFound | None => y
    end = y) by (destruct e as [[]|]; done).
  rewrite Hgo. rewrite Ha. simpl.
  unfold appendBlock. rewrite Hb. simpl. rewrite Hblk.
  destruct (decide (claimtrie.MerkleHash ct2 ≠ btcutil.ClaimTrie block)); [|done].
  simpl. by rewrite <- app_assoc.
Qed.

(** C1. When the first [k] heights of a replay go through and, at the next
    height, the changes are loaded and applied, the state machine advances
    one block, and its commitment hash differs from the hash in the header
    of the canonical block of the height it reached, then the replay returns
    the hash-mismatch error, however many heights were left to replay: the
    state machine is left as [AppendBlock] made it at that height, and the
    last calls of the replay are the [Load] of that height and the read of
    that block, so that nothing of a later height is loaded or applied. *)
Theorem replay_aborts_at_first_mismatch
    chainRepo chain k n ht ct tr ct_k tr_k changes e ct1 ct2 block :
  replayLoop chainRepo chain k ht ct tr = mkReplayed (Some ct_k) tr_k None ->
  chainrepo.Load chainRepo (int32 (advance k ht + 1)) = (changes, e) ->
  e <> Some chainrepo.ErrOther ->
  applyChanges ct_k changes = (ct1, None) ->
  claimtrie.AppendBlock ct1 = (ct2, false) ->
  ledger.BlockByHeight chain (claimtrie.Height ct2) = Some block ->
  claimtrie.MerkleHash ct2 <> btcutil.ClaimTrie block ->
  replayLoop chainRepo chain (k + S n) ht ct tr
  = mkReplayed (Some ct2)
      (tr_k ++ [EvLoad (int32 (advance k ht + 1))]
            ++ [EvBlockByHeight (claimtrie.Height ct2)])
      (Some (ErrAppendBlock
               (ErrHashMismatched (claimtrie.Height ct2)
                  (btcutil.ClaimTrie block) (claimtrie.MerkleHash ct2)))).
Proof.
  intros Hk Hl He Ha Hb Hblk Hne.
  rewrite replayLoop_split, Hk.
  eapply replayLoop_mismatch; eauto.
Qed.

Lemma loads_app tr1 tr2 : loads (tr1 ++ tr2) = loads tr1 ++ loads tr2.
Proof. apply omap_app. Qed.

Lemma appendBlock_events ct chain :
  (appendBlock ct chain).1.2 = [] \/
  exists h, (appendBlock ct chain).1.2 = [EvBlockByHeight h].
Proof.
  unfold appendBlock. destruct (claimtrie.AppendBlock ct) as [ct' []]; simpl; [by left|].
  right. exists (claimtrie.Height ct').
  destruct (ledger.BlockByHeight chain _); [|done].
  by destruct (decide _).
Qed.

Lemma appendBlock_loads ct chain : loads (appendBlock ct chain).1.2 = [].
Proof. by destruct (appendBlock_events ct chain) as [->|[h ->]]. Qed.

(** The heights loaded by the loop: [ht + 1], [ht + 2], ... one per
    iteration made, and all [n] of them when the loop returns no error. *)
Lemma replayLoop_loads chainRepo chain n ht ct tr :
  is_int32 ht -> is_int32 (ht + Z.of_nat n) ->
  exists j : nat,
    (j <= n)%nat /\
    loads (trace (replayLoop chainRepo chain n ht ct tr))
    = loads tr ++ seqZ (ht + 1) (Z.of_nat j) /\
    (err (replayLoop chainRepo chain n ht ct tr) = None -> j = n).
Proof.
  revert ht ct tr. induction n as [|n IH]; intros ht ct tr Hlo Hhi.
  - exists 0%nat. simpl. rewrite app_nil_r. done.
  - assert (Hnext : is_int32 (ht + 1)) by (unfold is_int32 in *; lia).
    assert (Hhi' : is_int32 (ht + 1 + Z.of_nat n)).
    { by replace (ht + 1 + Z.of_nat n) with (ht + Z.of_nat (S n)) by lia. }
    assert (Hone : forall tr0,
      loads (tr ++ [EvLoad (ht + 1)] ++ tr0) = loads tr ++ seqZ (ht + 1) 1 ++ loads tr0).
    { intros tr0. by rewrite !loads_app. }
    simpl. rewrite (int32_id _ Hnext).
    destruct (chainrepo.Load chainRepo (ht + 1)) as [changes [[]|]]; simpl.
    2:{ exists 1%nat. split; [lia|]. split; [|done].
        by rewrite loads_app. }
    all: destruct (applyChanges ct changes) as [ct1 [e1|]]; simpl;
      [exists 1%nat; split; [lia|]; split; [by rewrite loads_app | done] |].
    all: pose proof (appendBlock_loads ct1 chain) as Hev;
      destruct (appendBlock ct1 chain) as [[ct2 ev] [e2|]]; simpl in *;
      [exists 1%nat; split; [lia|]; split;
         [by rewrite !loads_app, Hev, app_nil_r | done] |].
    all: destruct (IH (ht + 1) ct2 ((tr ++ [EvLoad (ht + 1)]) ++ ev) Hnext Hhi')
           as (j & Hj & Hloads & Herr);
      exists (S j); split; [lia|]; split; [|by intros ->%Herr];
      rewrite Hloads, !loads_app, Hev, app_nil_r, <- app_assoc; f_equal;
      rewrite (seqZ_cons (ht + 1) (Z.of_nat (S j))) by lia;
      simpl; do 2 f_equal; lia.
Qed.

(** C4. In every iteration of the replay loop the batch is loaded for the
    height after the counter. A not-found result (which comes with a nil
    batch) is treated as an empty batch: no change is applied and the
    iteration goes on to [appendBlock] and, if that succeeds, to the next
    height. Any other failure of [Load] makes the replay return an error at
    once, with the state machine untouched. A replay from [fromHeight] to
    [toHeight] that returns no error has loaded the heights
    [fromHeight + 1], ..., [toHeight], in this order. *)
Theorem load_not_found_is_empty_other_failure_aborts chainRepo chain :
  (forall n ht ct tr,
     chainrepo.Load chainRepo (int32 (ht + 1)) = ([], Some chainrepo.ErrNotFound) ->
     replayLoop chainRepo chain (S n) ht ct tr
     = let b := appendBlock ct chain in
       let tr' := (tr ++ [EvLoad (int32 (ht + 1))]) ++ b.1.2 in
       match b.2 with
       | Some e => mkReplayed (Some b.1.1) tr' (Some (ErrAppendBlock e))
       | None => replayLoop chainRepo chain n (int32 (ht + 1)) b.1.1 tr'
       end) /\
  (forall n ht ct tr changes,
     chainrepo.Load chainRepo (int32 (ht + 1)) = (changes, Some chainrepo.ErrOther) ->
     replayLoop chainRepo chain (S n) ht ct tr
     = mkReplayed (Some ct) (tr ++ [EvLoad (int32 (ht + 1))])
         (Some (ErrLoadChanges ht))) /\
  (forall fromHeight toHeight ct tr,
     is_int32 fromHeight -> is_int32 toHeight ->
     err (replayLoop chainRepo chain (iterations fromHeight toHeight)
            fromHeight ct tr) = None ->
     loads (trace (replayLoop chainRepo chain (iterations fromHeight toHeight)
                     fromHeight ct tr))
     = loads tr ++ seqZ (fromHeight + 1) (toHeight - fromHeight)).
Proof.
  repeat split.
  - intros n ht ct tr Hl. simpl. by rewrite Hl.
  - intros n ht ct tr changes Hl. simpl. by rewrite Hl.
  - intros fromHeight toHeight ct tr Hf Ht Herr. unfold iterations in *.
    destruct (decide (toHeight <= fromHeight)) as [Hle|Hgt].
    + replace (Z.to_nat (toHeight - fromHeight)) with 0%nat by lia. simpl.
      by rewrite seqZ_nil, app_nil_r by lia.
    + destruct (replayLoop_loads chainRepo chain
                  (Z.to_nat (toHeight - fromHeight)) fromHeight ct tr)
        as (j & _ & Hloads & Hj); [done| |].
      { by replace (fromHeight + Z.of_nat (Z.to_nat (toHeight - fromHeight)))
          with toHeight by lia. }
      rewrite Hloads, (Hj Herr). f_equal. f_equal. lia.
Qed.

End ReplayFacts.

Section ReplayFrame.

Context `{Tr : claimtrie.Trie} `{Pb : chainrepo.Pebble} `{Ch : ledger.Chain}.
Context `{En : !Env}.

Lemma deleteRepos_trace dbNames tr :
  exists k : nat,
    (deleteRepos dbNames tr).1
    = tr ++ map (fun dbName => EvRemoveAll (repoPath dbName)) (take k dbNames).
Proof.
  revert tr. induction dbNames as [|dbName rest IH]; intros tr; simpl.
  - exists 0%nat. by rewrite app_nil_r.
  - destruct (os_RemoveAll (repoPath dbName)).
    + by exists 1%nat.
    + destruct (IH (tr ++ [EvRemoveAll (repoPath dbName)])) as [k ->].
      exists (S k). simpl. by rewrite <- app_assoc.
Qed.

Lemma replayLoop_trace chainRepo chain n ht ct tr :
  exists rest,
    trace (replayLoop chainRepo chain n ht ct tr) = tr ++ rest /\
    Forall readsOnly rest.
Proof.
  revert ht ct tr. induction n as [|n IH]; intros ht ct tr; simpl.
  - exists []. by rewrite app_nil_r.
  - assert (Hev : forall ct1, Forall readsOnly (appendBlock ct1 chain).1.2).
    { intros ct1. destruct (appendBlock_events ct1 chain) as [->|[h ->]];
        repeat constructor. }
    destruct (chainrepo.Load chainRepo (int32 (ht + 1))) as [changes [[]|]]; simpl.
    2:{ eexists. split; [done|]. repeat constructor. }
    all: destruct (applyChanges ct changes) as [ct1 [e1|]]; simpl;
      [eexists; split; [done|]; repeat constructor |].
    all: specialize (Hev ct1);
      destruct (appendBlock ct1 chain) as [[ct2 ev] [e2|]]; simpl in *;
      [eexists; split; [by rewrite <- app_assoc|];
       by apply Forall_app; split; [repeat constructor|] |].
    all: destruct (IH (int32 (ht + 1)) ct2 ((tr ++ [EvLoad (int32 (ht + 1))]) ++ ev))
           as (rest & -> & Hrest);
      eexists; split; [by rewrite <- !app_assoc|];
      apply Forall_app; split; [repeat constructor|];
      by apply Forall_app.
Qed.

Lemma readsOnly_saves rest : Forall readsOnly rest -> saves rest = [].
Proof.
  induction 1 as [|e rest He _ IH]; [done|].
  unfold saves in *. destruct e; simpl in *; done.
Qed.

(** C9. The calls of the replay command on the file system and the stores
    are: [os.RemoveAll] on the paths of the block, node, merkle-trie and
    temporal repositories, in this order and up to the first that fails;
    then nothing but opening the Change Log Store, [Load] on it, and reads
    of the ledger. [Save] is never called, and the path of the Change Log
    Store, when it is none of the four paths, is never given to
    [os.RemoveAll]. *)
Theorem replay_only_loads_change_log fromHeight toHeight :
  (exists (k : nat) rest,
     trace (replayRunE fromHeight toHeight)
     = map (fun dbName => EvRemoveAll (repoPath dbName)) (take k derivedRepos)
       ++ rest /\
     Forall readsOnly rest) /\
  saves (trace (replayRunE fromHeight toHeight)) = [] /\
  (repoPath (ChainRepoPebble cfg) ∉ map repoPath derivedRepos ->
   EvRemoveAll (repoPath (ChainRepoPebble cfg))
     ∉ trace (replayRunE fromHeight toHeight)).
Proof.
  assert (Hshape : exists (k : nat) rest,
     trace (replayRunE fromHeight toHeight)
     = map (fun dbName => EvRemoveAll (repoPath dbName)) (take k derivedRepos)
       ++ rest /\
     Forall readsOnly rest).
  { unfold replayRunE.
    destruct (deleteRepos_trace derivedRepos []) as [k Hk].
    destruct (deleteRepos derivedRepos []) as [tr [e|]]; simpl in Hk; subst tr.
    - exists k, []. by rewrite app_nil_r.
    - exists k.
      destruct (chainrepo_NewPebble _) as [chainRepo|]; simpl;
        [|eexists; split; [done|]; by repeat constructor].
      destruct claimtrie_New as [ct|]; simpl;
        [|eexists; split; [done|]; by repeat constructor].
      destruct loadBlocksDB as [db|]; simpl;
        [|eexists; split; [done|]; by repeat constructor].
      destruct (loadChain db) as [chain|]; simpl;
        [|eexists; split; [done|]; by repeat constructor].
      destruct (replayLoop_trace chainRepo chain
                  (iterations fromHeight toHeight) fromHeight ct
                  (map (fun dbName => EvRemoveAll (repoPath dbName))
                       (take k derivedRepos)
                   ++ [EvNewPebble (repoPath (ChainRepoPebble cfg))]))
        as (rest & -> & Hrest).
      eexists. split; [by rewrite <- app_assoc|].
      constructor; done. }
  split; [exact Hshape|].
  destruct Hshape as (k & rest & -> & Hrest). split.
  - unfold saves. rewrite omap_app. fold (saves rest).
    rewrite (readsOnly_saves _ Hrest), app_nil_r.
    clear. induction (take k derivedRepos) as [|n l IH]; [done|]. exact IH.
  - intros Hnot Hin. apply elem_of_app in Hin as [Hin|Hin].
    + apply list_elem_of_In, in_map_iff in Hin as (dbName & Heq & Hd).
      inversion Heq as [Hp]. apply Hnot. rewrite <- Hp.
      apply list_elem_of_In, in_map. apply list_elem_of_In.
      apply list_elem_of_In, elem_of_take in Hd as (i & Hi & _).
      eapply list_elem_of_lookup_2, Hi.
    + rewrite Forall_forall in Hrest. by apply Hrest in Hin.
Qed.

End ReplayFrame.

(** * The fetch stage: proofs *)

Section FetchFacts.

Context `{Dec : txscript.Decoder} `{Chg : change.Pkg} `{Bc : blockchain.Utxo}.
Context `{Tr : claimtrie.Trie} `{Pb : chainrepo.Pebble} `{Ch : ledger.Chain}.
Context `{En : !Env}.

Lemma reads_app tr1 tr2 : reads (tr1 ++ tr2) = reads tr1 ++ reads tr2.
Proof. apply omap_app. Qed.

Lemma getBlockLoop_reads chain n ht tr blockChan :
  0 <= ht -> ht + Z.of_nat n <= MaxInt32 ->
  (forall h, ht <= h < ht + Z.of_nat n -> is_Some (ledger.BlockByHeight chain h)) ->
  reads (getBlockLoop chain n ht tr blockChan).1
  = reads tr ++ seqZ ht (Z.of_nat n).
Proof.
  revert ht tr blockChan.
  induction n as [|n IH]; intros ht tr blockChan Hlo Hhi Hall.
  - simpl. by rewrite seqZ_nil, app_nil_r by lia.
  - simpl. destruct (Hall ht) as [block Hb]; [lia|]. rewrite Hb.
    rewrite int32_id by (unfold is_int32, MinInt32, MaxInt32 in *; lia).
    rewrite IH; [|lia|lia|intros h Hh; apply Hall; lia].
    rewrite reads_app, <- app_assoc. f_equal.
    rewrite (seqZ_cons ht (Z.of_nat (S n))) by lia.
    simpl. do 2 f_equal; lia.
Qed.

(** The heights [getBlock] reads: 0 up to, and without, the smaller of
    200000 and the height of the tip. *)
Lemma getBlock_reads chain :
  (forall h, 0 <= h < Z.min 200000 (ledger.BestSnapshotHeight chain) ->
     is_Some (ledger.BlockByHeight chain h)) ->
  reads (getBlock chain).1
  = seqZ 0 (Z.min 200000 (ledger.BestSnapshotHeight chain)).
Proof.
  intros Hall. unfold getBlock.
  change (int32 200000) with 200000. change (int32 0) with 0.
  set (tip := ledger.BestSnapshotHeight chain) in *.
  assert (Hmin : (if 200000 >? tip then tip else 200000) = Z.min 200000 tip).
  { destruct (Z.gtb_spec 200000 tip); lia. }
  rewrite Hmin.
  destruct (decide (Z.min 200000 tip <= 0)) as [Hle|Hgt].
  - replace (Z.to_nat (Z.min 200000 tip)) with 0%nat by lia.
    simpl. by rewrite seqZ_nil.
  - rewrite getBlockLoop_reads.
    + simpl. f_equal. lia.
    + done.
    + unfold MaxInt32. lia.
    + intros h Hh. apply Hall. lia.
Qed.

(** Whatever the value of the [--height] flag, a convert command whose
    ledger opens reads the heights below the smaller of 200000 and the
    height of the tip. *)
Lemma convertRunE_reads height db chain :
  loadBlocksDB = Some db ->
  loadChain db = Some chain ->
  (forall h, 0 <= h < Z.min 200000 (ledger.BestSnapshotHeight chain) ->
     is_Some (ledger.BlockByHeight chain h)) ->
  exists c,
    convertRunE height = Some c /\
    reads (fetched c).1 = seqZ 0 (Z.min 200000 (ledger.BestSnapshotHeight chain)).
Proof.
  intros Hdb Hchain Hall. unfold convertRunE. rewrite Hdb, Hchain.
  eexists. split; [done|]. simpl. by apply getBlock_reads.
Qed.

End FetchFacts.

(** * Further properties of the extractor *)

Section ExtractorMore.

Context `{Dec : txscript.Decoder} `{Chg : change.Pkg} `{Bc : blockchain.Utxo}.

(** The record made for an output that decodes to [cs]. *)
Lemma createChange_claim height hash i txOut cs err :
  txscript.DecodeClaimScript (wire.PkScript txOut) = (Some cs, err) ->
  err <> Some txscript.ErrNotClaimScript ->
  createChange height hash i txOut
  = Done (Some (createSwitch cs (wire.mkOutPoint hash (uint32 (Z.of_nat i)))
                  (change.mkChange change.ZeroType height (txscript.Name cs)
                     change.ZeroClaimID
                     (wire.mkOutPoint hash (uint32 (Z.of_nat i)))
                     (wire.Value txOut)))).
Proof.
  intros Hd Herr. unfold createChange. rewrite Hd. destruct err as [[]|]; done.
Qed.

(** A record made for an output of the list, at its position, is in the
    result of the loop. *)
Lemma createChanges_elem height hash i txOuts changes r (j : nat) txOut chg :
  createChanges height hash i txOuts changes = Done r ->
  txOuts !! j = Some txOut ->
  createChange height hash (i + j) txOut = Done (Some chg) ->
  chg ∈ r.
Proof.
  revert i j changes.
  induction txOuts as [|t rest IH]; simpl; intros i j changes H Hj Hc; [done|].
  apply run_bind_Done in H as (o & Ho & H). destruct j as [|j]; simpl in Hj.
  - inversion Hj; subst. rewrite Nat.add_0_r in Hc. rewrite Hc in Ho.
    inversion Ho; subst.
    apply createChanges_Done in H as (added & -> & _).
    apply elem_of_app. left. apply elem_of_app. right. by left.
  - replace (i + S j)%nat with (S i + j)%nat in Hc by lia.
    destruct o; eapply IH; eauto.
Qed.

(** X1. For every output of a non-coinbase transaction that decodes as a
    claim script, the batch holds a record for it whose outpoint is the
    hash of the transaction with the position of the output, and whose
    amount is the value of the output: for OP_CLAIMNAME an AddClaim whose
    ClaimID is [NewClaimID] of that outpoint; for OP_SUPPORTCLAIM an
    AddSupport and for OP_UPDATECLAIM an UpdateClaim, both with the ClaimID
    of the script (which has the fixed width of a ClaimID). *)
Theorem creation_classified_by_opcode
    height tx v changes v' r (i : nat) txOut cs :
  blockchain.IsCoinBase tx = false ->
  processTx height tx (v, changes) = Done (v', r) ->
  btcutil.TxOut tx !! i = Some txOut ->
  txscript.DecodeClaimScript (wire.PkScript txOut) = (Some cs, None) ->
  (txscript.Opcode_ cs <> txscript.OP_CLAIMNAME ->
   length (txscript.ClaimID cs) = change.ClaimIDSize) ->
  let op := wire.mkOutPoint (btcutil.TxHash tx) (uint32 (Z.of_nat i)) in
  match txscript.Opcode_ cs with
  | txscript.OP_CLAIMNAME =>
      change.mkChange change.AddClaim height (txscript.Name cs)
        (change.NewClaimID op) op (wire.Value txOut) ∈ r
  | txscript.OP_SUPPORTCLAIM =>
      change.mkChange change.AddSupport height (txscript.Name cs)
        (txscript.ClaimID cs) op (wire.Value txOut) ∈ r
  | txscript.OP_UPDATECLAIM =>
      change.mkChange change.UpdateClaim height (txscript.Name cs)
        (txscript.ClaimID cs) op (wire.Value txOut) ∈ r
  | txscript.OP_other => True
  end.
Proof.
  intros Hcb H Hi Hd Hlen op.
  pose proof (createChange_claim height (btcutil.TxHash tx) i txOut cs None Hd
                ltac:(done)) as Hcc.
  unfold processTx in H. simpl in H. rewrite Hcb in H.
  apply run_bind_Done in H as (c1 & H1 & H).
  apply run_bind_Done in H as (c2 & H2 & H). inversion H; subst.
  pose proof (createChanges_elem _ _ 0 _ _ _ i txOut _ H2 Hi Hcc) as Hin.
  revert Hin Hlen. unfold createSwitch. simpl. fold op.
  destruct (txscript.Opcode_ cs); intros Hin Hlen; try done;
    rewrite copy_exact in Hin by (rewrite ZeroClaimID_length; by apply Hlen);
    done.
Qed.

(** X2. The view a completed extraction leaves is the incoming view with
    every transaction of the block registered, coinbase transactions
    included, once each and in block order. *)
Theorem extractBlock_registers_every_transaction v block v' batch :
  extractBlock v block = Done (v', batch) ->
  v' = foldl (fun view tx => blockchain.AddTxOuts view tx (btcutil.Height block))
         v (btcutil.Transactions block).
Proof.
  unfold extractBlock. generalize (@nil change.Change) as changes.
  revert v. induction (btcutil.Transactions block) as [|tx rest IH];
    simpl; intros v changes H.
  - by inversion H.
  - apply run_bind_Done in H as ([v1 c1] & H1 & H).
    apply processTx_Done in H1 as [-> _]. eapply IH, H.
Qed.

(** The input loop and the output loop append one record at most per
    iteration. *)
Lemma spendChanges_length height v txIns changes r :
  spendChanges height v txIns changes = Done r ->
  (length r <= length changes + length txIns)%nat.
Proof.
  revert changes. induction txIns as [|t rest IH]; simpl; intros changes H.
  - inversion H. lia.
  - apply run_bind_Done in H as (o & _ & H). destruct o.
    + apply IH in H. rewrite length_app in H. simpl in H. lia.
    + apply IH in H. lia.
Qed.

Lemma createChanges_length height hash i txOuts changes r :
  createChanges height hash i txOuts changes = Done r ->
  (length r <= length changes + length txOuts)%nat.
Proof.
  revert i changes. induction txOuts as [|t rest IH]; simpl; intros i changes H.
  - inversion H. lia.
  - apply run_bind_Done in H as (o & _ & H). destruct o.
    + apply IH in H. rewrite length_app in H. simpl in H. lia.
    + apply IH in H. lia.
Qed.

Lemma processTxs_length height txs v changes v' r :
  processTxs height txs (v, changes) = Done (v', r) ->
  (length r <= length changes + sum_list (map capacity txs))%nat.
Proof.
  revert v changes. induction txs as [|tx rest IH]; simpl; intros v changes H.
  - inversion H. lia.
  - apply run_bind_Done in H as ([v1 c1] & H1 & H). apply IH in H.
    enough (length c1 <= length changes + capacity tx)%nat by lia.
    unfold processTx, capacity in *. simpl in H1.
    destruct (blockchain.IsCoinBase tx).
    + inversion H1. lia.
    + apply run_bind_Done in H1 as (c2 & H2 & H1).
      apply run_bind_Done in H1 as (c3 & H3 & H1). inversion H1; subst.
      apply spendChanges_length in H2. apply createChanges_length in H3. lia.
Qed.

(** X3. A batch holds at most one record per input and per output of the
    non-coinbase transactions of its block; coinbase transactions
    contribute none, whatever their outputs carry. *)
Theorem batch_length_bounded v block v' batch :
  extractBlock v block = Done (v', batch) ->
  (length batch <= sum_list (map capacity (btcutil.Transactions block)))%nat.
Proof. intros H. by apply processTxs_length in H. Qed.

Lemma spendChanges_ext height v1 v2 txIns changes :
  Forall (fun txIn =>
            blockchain.LookupEntry v1 (wire.PreviousOutPoint txIn)
            = blockchain.LookupEntry v2 (wire.PreviousOutPoint txIn)) txIns ->
  spendChanges height v1 txIns changes = spendChanges height v2 txIns changes.
Proof.
  intros Hall. revert changes.
  induction Hall as [|txIn rest Hl _ IH]; intros changes; [done|].
  simpl. unfold spendChange. rewrite Hl.
  destruct (blockchain.LookupEntry v2 (wire.PreviousOutPoint txIn)); [|done].
  destruct (txscript.DecodeClaimScript _) as [[cs|] [[]|]]; simpl; by rewrite ?IH.
Qed.

(** X12. Registering the outputs of a transaction before resolving its
    inputs, as the code does, gives the records and the view that
    registering them after the inputs would give, for every transaction
    none of whose inputs spends an output of that same transaction, on a
    view whose registration only touches the outpoints of the transaction
    registered. *)
Theorem registration_order_unobservable height tx st :
  viewFrame ->
  Forall (fun txIn =>
            wire.Hash (wire.PreviousOutPoint txIn) <> btcutil.TxHash tx)
    (btcutil.TxIn tx) ->
  processTx height tx st = processTx_inputsFirst height tx st.
Proof.
  intros Hframe Hins. unfold processTx, processTx_inputsFirst.
  destruct (blockchain.IsCoinBase tx); [done|].
  rewrite (spendChanges_ext height (blockchain.AddTxOuts st.1 tx height) st.1);
    [done|].
  eapply Forall_impl; [exact Hins|]. intros txIn Hne. by apply Hframe.
Qed.

End ExtractorMore.

(** * Further properties of the converter pipeline *)

Section ConverterMore.

Context `{Dec : txscript.Decoder} `{Chg : change.Pkg} `{Bc : blockchain.Utxo}.
Context `{Tr : claimtrie.Trie} `{Pb : chainrepo.Pebble} `{Ch : ledger.Chain}.
Context `{En : !Env}.

Lemma seqZ_succ m (j : nat) :
  seqZ m (Z.of_nat (S j)) = m :: seqZ (m + 1) (Z.of_nat j).
Proof.
  rewrite (seqZ_cons m (Z.of_nat (S j))) by lia. do 2 f_equal; lia.
Qed.

Lemma extractBlock_batchKey v block v' batch :
  extractBlock v block = Done (v', batch) ->
  batch <> [] ->
  batchKey batch = btcutil.Height block.
Proof.
  intros Hex Hne. apply extractBlock_heights in Hex.
  destruct batch as [|chg0 more]; [done|]. simpl.
  by apply Forall_cons in Hex as [-> _].
Qed.

Lemma processBlockLoop_order v blockChan sent sent' out :
  processBlockLoop v blockChan sent = (sent', out) ->
  exists added,
    sent' = sent ++ added /\
    map batchKey added `sublist_of` map btcutil.Height blockChan.
Proof.
  revert v sent. induction blockChan as [|block rest IH]; simpl; intros v sent H.
  - inversion H; subst. exists []. rewrite app_nil_r. split; [done|constructor].
  - destruct (extractBlock v block) as [[v1 changes]|why] eqn:Hex.
    + destruct (length changes =? 0)%nat eqn:Hlen; simpl in H.
      * apply IH in H as (added & -> & Hsub). exists added.
        split; [done|]. by apply sublist_cons.
      * apply IH in H as (added & -> & Hsub). exists (changes :: added).
        split; [by rewrite <- app_assoc|]. simpl.
        rewrite (extractBlock_batchKey _ _ _ _ Hex).
        -- by apply sublist_skip.
        -- intros ->. simpl in Hlen. discriminate.
    + inversion H; subst. exists []. rewrite app_nil_r.
      split; [done|]. apply sublist_nil_l.
Qed.

(** X4. The extract stage sends at most one batch per block and sends the
    batches in the order of the blocks it received: the heights under
    which the batches will be saved are a subsequence of the heights of the
    blocks. *)
Theorem batches_sent_in_block_order blockChan sent out :
  processBlock blockChan = (sent, out) ->
  map batchKey sent `sublist_of` map btcutil.Height blockChan.
Proof.
  unfold processBlock. intros H.
  apply processBlockLoop_order in H as (added & -> & Hsub). exact Hsub.
Qed.

Lemma getBlockLoop_blocks chain n ht tr blockChan :
  0 <= ht -> ht + Z.of_nat n <= MaxInt32 ->
  exists (j : nat) blocks,
    (j <= n)%nat /\
    (getBlockLoop chain n ht tr blockChan).2 = blockChan ++ blocks /\
    Forall2 (fun h block => ledger.BlockByHeight chain h = Some block)
      (seqZ ht (Z.of_nat j)) blocks /\
    ((j < n)%nat ->
       ledger.BlockByHeight chain (ht + Z.of_nat j) = None /\
       reads (getBlockLoop chain n ht tr blockChan).1
       = reads tr ++ seqZ ht (Z.of_nat (S j))) /\
    (j = n ->
       reads (getBlockLoop chain n ht tr blockChan).1
       = reads tr ++ seqZ ht (Z.of_nat n)).
Proof.
  revert ht tr blockChan.
  induction n as [|n IH]; intros ht tr blockChan Hlo Hhi.
  - exists 0%nat, []. simpl. rewrite !app_nil_r.
    split; [lia|]. split; [done|]. split; [constructor|].
    split; [lia | done].
  - simpl. destruct (ledger.BlockByHeight chain ht) as [block|] eqn:Hb.
    + rewrite int32_id by (unfold is_int32, MinInt32, MaxInt32 in *; lia).
      destruct (IH (ht + 1) (tr ++ [EvBlockByHeight ht]) (blockChan ++ [block]))
        as (j & blocks & Hj & Hbl & Hall & Hstop & Hfull); [lia|lia|].
      exists (S j), (block :: blocks). split; [lia|].
      split; [by rewrite Hbl, <- app_assoc|].
      split; [rewrite seqZ_succ; by constructor|].
      split.
      * intros Hlt. destruct Hstop as [Hnone Hreads]; [lia|]. split.
        -- by replace (ht + Z.of_nat (S j)) with (ht + 1 + Z.of_nat j) by lia.
        -- rewrite Hreads, reads_app, <- app_assoc. f_equal.
           by rewrite (seqZ_succ ht (S j)).
      * intros Heq. rewrite Hfull by lia.
        rewrite reads_app, <- app_assoc. f_equal. by rewrite (seqZ_succ ht n).
    + exists 0%nat, []. rewrite app_nil_r. split; [lia|]. split; [done|].
      split; [constructor|]. split.
      * intros _. rewrite Z.add_0_r. split; [done|].
        rewrite (seqZ_succ ht 0), seqZ_nil by lia. cbn [fst].
        by rewrite reads_app.
      * intros Heq. lia.
Qed.

(** The shape of a fetch stage that is never blocked: [j] blocks sent, and
    either the read of height [j] failed and was the last, or [j] is the
    bound. *)
Lemma getBlock_unblocked chain :
  let bound := Z.to_nat (Z.min 200000 (ledger.BestSnapshotHeight chain)) in
  exists j : nat,
    (j <= bound)%nat /\
    Forall2 (fun h block => ledger.BlockByHeight chain h = Some block)
      (seqZ 0 (Z.of_nat j)) (getBlock chain).2 /\
    ((j < bound)%nat ->
       ledger.BlockByHeight chain (Z.of_nat j) = None /\
       reads (getBlock chain).1 = seqZ 0 (Z.of_nat (S j))) /\
    (j = bound -> reads (getBlock chain).1 = seqZ 0 (Z.of_nat bound)).
Proof.
  intros bound. unfold getBlock.
  change (int32 200000) with 200000. change (int32 0) with 0.
  set (tip := ledger.BestSnapshotHeight chain) in *.
  assert (Hmin : (if 200000 >? tip then tip else 200000) = Z.min 200000 tip).
  { destruct (Z.gtb_spec 200000 tip); lia. }
  rewrite Hmin. fold bound.
  destruct (getBlockLoop_blocks chain bound 0 [] [])
    as (j & blocks & Hj & Hbl & Hall & Hstop & Hfull); [lia| |].
  { unfold MaxInt32, bound. lia. }
  exists j. split; [done|]. simpl in Hbl. rewrite Hbl.
  split; [done|]. split.
  - intros Hlt. destruct (Hstop Hlt) as [Hnone Hreads]. by split.
  - intros Heq. by apply Hfull.
Qed.

Lemma prefix_seqZ (l : list Z) m n : l `prefix_of` seqZ m n -> l = seqZ m (Z.of_nat (length l)).
Proof.
  intros [k Hk]. apply list_eq. intros i.
  assert (Hlen : (length l <= Z.to_nat n)%nat).
  { rewrite <- (length_seqZ m n), Hk, length_app. lia. }
  destruct (decide (i < length l)%nat) as [Hlt|Hge].
  - rewrite (lookup_seqZ_lt m (Z.of_nat (length l)) i) by lia.
    rewrite <- (lookup_app_l l k) by done. rewrite <- Hk.
    apply lookup_seqZ_lt. lia.
  - rewrite lookup_ge_None_2 by lia. symmetry. apply lookup_seqZ_ge. lia.
Qed.

(** X5. Whatever part of its reads and sends the fetch stage has made, the
    heights read are 0, 1, 2, ... without a gap and all below the smaller
    of 200000 and the height of the tip (so the block of the tip is never
    read); the blocks sent are the blocks of the heights 0, 1, 2, ... in
    this order; and a read that failed is the last read the stage makes. *)
Theorem getBlock_reads_and_sends_in_height_order chain readsSoFar sentSoFar :
  readsSoFar `prefix_of` reads (getBlock chain).1 ->
  sentSoFar `prefix_of` (getBlock chain).2 ->
  readsSoFar = seqZ 0 (Z.of_nat (length readsSoFar)) /\
  Z.of_nat (length readsSoFar)
    <= Z.max 0 (Z.min 200000 (ledger.BestSnapshotHeight chain)) /\
  Forall2 (fun h block => ledger.BlockByHeight chain h = Some block)
    (seqZ 0 (Z.of_nat (length sentSoFar))) sentSoFar /\
  (forall (i : nat) h,
     readsSoFar !! i = Some h ->
     ledger.BlockByHeight chain h = None ->
     length (reads (getBlock chain).1) = S i).
Proof.
  intros Hreads Hsent.
  destruct (getBlock_unblocked chain) as (j & Hj & Hall & Hstop & Hfull).
  set (bound := Z.to_nat (Z.min 200000 (ledger.BestSnapshotHeight chain))) in *.
  assert (Hshape : exists m : nat,
            reads (getBlock chain).1 = seqZ 0 (Z.of_nat m) /\
            (m <= bound)%nat /\
            (m = S j \/ (m = j /\ j = bound))).
  { destruct (decide (j < bound)%nat) as [Hlt|Hge].
    - destruct (Hstop Hlt) as [_ Hr]. exists (S j). split; [done|]. lia.
    - exists j. assert (j = bound) as Heq by lia.
      split; [rewrite Heq; by apply Hfull|]. lia. }
  destruct Hshape as (m & Hfullreads & Hm & Hcase).
  rewrite Hfullreads in *.
  split; [by eapply prefix_seqZ|]. split.
  { apply prefix_length in Hreads. rewrite length_seqZ in Hreads. lia. }
  split.
  - destruct Hsent as [rest Hrest]. rewrite Hrest in Hall.
    apply Forall2_app_inv_r in Hall as (l1 & l2 & H1 & _ & Hl).
    assert (Hl1 : l1 = seqZ 0 (Z.of_nat (length l1))).
    { eapply prefix_seqZ. exists l2. exact Hl. }
    rewrite <- (Forall2_length _ _ _ H1). by rewrite <- Hl1.
  - intros i h Hi Hnone.
    pose proof (prefix_lookup_Some _ _ _ _ Hi Hreads) as Hfulli.
    apply lookup_seqZ in Hfulli as [-> Hlt].
    rewrite length_seqZ, Nat2Z.id.
    destruct (decide (i < j)%nat) as [Hij|Hij].
    + assert (Hsome : seqZ 0 (Z.of_nat j) !! i = Some (0 + Z.of_nat i))
        by (apply lookup_seqZ_lt; lia).
      destruct (Forall2_lookup_l _ _ _ _ _ Hall Hsome) as (block & _ & Hb).
      congruence.
    + lia.
Qed.

End ConverterMore.

(** * Further properties of the replay engine *)

Section ReplayMore.

Context `{Tr : claimtrie.Trie} `{Pb : chainrepo.Pebble} `{Ch : ledger.Chain}.
Context `{En : !Env}.

(** Applying a batch is applying its parts one after the other, up to the
    first record that fails. *)
Lemma applyChanges_app trie pre post :
  applyChanges trie (pre ++ post) =
  match applyChanges trie pre with
  | (trie', None) => applyChanges trie' post
  | r => r
  end.
Proof.
  revert trie. induction pre as [|chg pre IH]; intros trie; [done|].
  simpl. destruct (applyChange trie chg) as [trie1 []]; simpl; [done|apply IH].
Qed.

(** X6. When a record of the batch of a height fails to apply (the state
    machine returns an error, or the record has an unknown type), the
    replay returns the execute-change error for that record at once: the
    records before it have been applied, the records after it are not, the
    state machine is not advanced, no block is read and no later height is
    loaded. *)
Theorem replay_stops_at_failing_change
    chainRepo chain n ht trie tr pre chg post e trie1 :
  chainrepo.Load chainRepo (int32 (ht + 1)) = (pre ++ chg :: post, e) ->
  e <> Some chainrepo.ErrOther ->
  applyChanges trie pre = (trie1, None) ->
  (applyChange trie1 chg).2 = true ->
  replayLoop chainRepo chain (S n) ht trie tr
  = mkReplayed (Some (applyChange trie1 chg).1)
      (tr ++ [EvLoad (int32 (ht + 1))]) (Some (ErrExecuteChange chg)).
Proof.
  intros Hl He Hpre Hchg. simpl. rewrite Hl. simpl.
  rewrite applyChanges_app, Hpre. simpl. rewrite Hchg. simpl.
  by destruct e as [[]|].
Qed.

Lemma appendBlock_verified trie chain trie' ev :
  appendBlock trie chain = (trie', ev, None) ->
  exists block,
    ledger.BlockByHeight chain (claimtrie.Height trie') = Some block /\
    claimtrie.MerkleHash trie' = btcutil.ClaimTrie block.
Proof.
  unfold appendBlock.
  destruct (claimtrie.AppendBlock trie) as [trie1 []]; simpl; [discriminate|].
  destruct (ledger.BlockByHeight chain (claimtrie.Height trie1)) as [block|] eqn:Hb;
    [|discriminate].
  destruct (decide (claimtrie.MerkleHash trie1 ≠ btcutil.ClaimTrie block))
    as [Hne|Heq]; [discriminate|].
  intros H. inversion H; subst. exists block. split; [done|].
  by destruct (decide (claimtrie.MerkleHash trie' = btcutil.ClaimTrie block)).
Qed.

(** X7. A replay of at least one height that returns no error leaves a
    state machine whose commitment hash is the hash in the header of the
    canonical block of the height the state machine has reached. *)
Theorem replay_success_is_verified chainRepo chain n ht trie tr :
  (0 < n)%nat ->
  err (replayLoop chainRepo chain n ht trie tr) = None ->
  exists trie' block,
    ct (replayLoop chainRepo chain n ht trie tr) = Some trie' /\
    ledger.BlockByHeight chain (claimtrie.Height trie') = Some block /\
    claimtrie.MerkleHash trie' = btcutil.ClaimTrie block.
Proof.
  revert ht trie tr. induction n as [|n IH]; intros ht trie tr Hn; [lia|].
  simpl.
  destruct (chainrepo.Load chainRepo (int32 (ht + 1))) as [changes [[]|]]; simpl;
    try discriminate.
  all: destruct (applyChanges trie changes) as [trie1 [e1|]]; simpl;
    [discriminate|].
  all: destruct (appendBlock trie1 chain) as [[trie2 ev] [e2|]] eqn:Hab; simpl;
    [discriminate|].
  all: destruct n as [|n]; [|apply IH; lia].
  all: intros _; simpl; apply appendBlock_verified in Hab as (block & Hb & Hh);
    by exists trie2, block.
Qed.

Lemma deleteRepos_all dbNames tr :
  Forall (fun dbName => os_RemoveAll (repoPath dbName) = false) dbNames ->
  deleteRepos dbNames tr
  = (tr ++ map (fun dbName => EvRemoveAll (repoPath dbName)) dbNames, None).
Proof.
  revert tr. induction dbNames as [|dbName rest IH]; intros tr Hall; simpl.
  - by rewrite app_nil_r.
  - apply Forall_cons in Hall as [Hok Hall]. rewrite Hok, IH by done.
    by rewrite <- app_assoc.
Qed.

Lemma deleteRepos_fails pre dbName post tr :
  Forall (fun dbName => os_RemoveAll (repoPath dbName) = false) pre ->
  os_RemoveAll (repoPath dbName) = true ->
  deleteRepos (pre ++ dbName :: post) tr
  = (tr ++ map (fun dbName => EvRemoveAll (repoPath dbName)) (pre ++ [dbName]),
     Some (ErrDeleteRepo (repoPath dbName))).
Proof.
  revert tr. induction pre as [|p pre IH]; intros tr Hall Hfail; simpl.
  - by rewrite Hfail.
  - apply Forall_cons in Hall as [Hok Hall]. rewrite Hok, IH by done.
    by rewrite <- app_assoc.
Qed.

(** X8. When deleting one of the four derived repositories fails, the
    replay command returns the delete error for that repository after
    having deleted the repositories before it: the repositories after it
    are not deleted, the Change Log Store is not opened and no state
    machine is created. *)
Theorem replay_delete_failure_aborts fromHeight toHeight pre dbName post :
  derivedRepos = pre ++ dbName :: post ->
  Forall (fun dbName => os_RemoveAll (repoPath dbName) = false) pre ->
  os_RemoveAll (repoPath dbName) = true ->
  replayRunE fromHeight toHeight
  = mkReplayed None
      (map (fun dbName => EvRemoveAll (repoPath dbName)) (pre ++ [dbName]))
      (Some (ErrDeleteRepo (repoPath dbName))).
Proof.
  intros Hd Hall Hfail. unfold replayRunE.
  by rewrite Hd, (deleteRepos_fails pre dbName post [] Hall Hfail).
Qed.

(** X9. A replay whose [toHeight] is not above its [fromHeight] (as with
    the default flags, both 0) still deletes the four derived repositories
    and opens the stores, then returns no error without loading a batch,
    applying a change or advancing the state machine. *)
Theorem replay_empty_range fromHeight toHeight chainRepo trie db chain :
  toHeight <= fromHeight ->
  Forall (fun dbName => os_RemoveAll (repoPath dbName) = false) derivedRepos ->
  chainrepo_NewPebble (repoPath (ChainRepoPebble cfg)) = Some chainRepo ->
  claimtrie_New = Some trie ->
  loadBlocksDB = Some db ->
  loadChain db = Some chain ->
  replayRunE fromHeight toHeight
  = mkReplayed (Some trie)
      (map (fun dbName => EvRemoveAll (repoPath dbName)) derivedRepos
       ++ [EvNewPebble (repoPath (ChainRepoPebble cfg))])
      None.
Proof.
  intros Hle Hall Hrepo Htrie Hdb Hchain. unfold replayRunE.
  rewrite (deleteRepos_all derivedRepos [] Hall). simpl.
  rewrite Hrepo, Htrie, Hdb, Hchain. unfold iterations.
  by replace (Z.to_nat (toHeight - fromHeight)) with 0%nat by lia.
Qed.

End ReplayMore.

(** * Properties of the dump command *)

Section DumpFacts.

Context `{Tr : claimtrie.Trie} `{Pb : chainrepo.Pebble} `{Ch : ledger.Chain}.
Context `{En : !Env}.

Lemma int32_range z : is_int32 (int32 z).
Proof.
  unfold is_int32, MinInt32, MaxInt32, int32.
  pose proof (Z.mod_pos_bound (z + 2 ^ 31) (2 ^ 32) ltac:(lia)). lia.
Qed.

Lemma dumpLoop_run chainRepo toHeight (m : nat) :
  toHeight < MaxInt32 ->
  forall fromHeight fuel tr shown0,
    MinInt32 <= fromHeight ->
    fromHeight + Z.of_nat m = toHeight + 1 ->
    (m <= fuel)%nat ->
    (forall h, fromHeight <= h <= toHeight ->
       (chainrepo.Load chainRepo h).2 <> Some chainrepo.ErrOther) ->
    dumpLoop chainRepo fuel toHeight fromHeight tr shown0
    = Some (mkDumped
              (tr ++ map EvLoad (seqZ fromHeight (Z.of_nat m)))
              (shown0 ++ concat (map (found chainRepo)
                                   (seqZ fromHeight (Z.of_nat m))))
              None).
Proof.
  intros Hmax. induction m as [|m IH]; intros fromHeight fuel tr shown0 Hlo Hm Hf Hok.
  - assert (Hgt : (fromHeight <=? toHeight) = false) by lia.
    destruct fuel; simpl; rewrite Hgt; by rewrite !app_nil_r.
  - destruct fuel as [|fuel]; [lia|]. simpl.
    assert (Hle : (fromHeight <=? toHeight) = true) by lia. rewrite Hle.
    rewrite int32_id by (unfold is_int32, MinInt32, MaxInt32 in *; lia).
    rewrite (seqZ_cons fromHeight (Z.of_nat (S m))) by lia.
    replace (Z.pred (Z.of_nat (S m))) with (Z.of_nat m) by lia.
    replace (Z.succ fromHeight) with (fromHeight + 1) by lia.
    specialize (Hok fromHeight ltac:(lia)) as Hhere.
    assert (Hrest : forall h, fromHeight + 1 <= h <= toHeight ->
              (chainrepo.Load chainRepo h).2 <> Some chainrepo.ErrOther).
    { intros h Hh. apply Hok. lia. }
    cbn [map concat]. unfold found at 1.
    destruct (chainrepo.Load chainRepo fromHeight) as [changes [[]|]]; simpl in *;
      [|done|].
    + rewrite IH; [|unfold MinInt32 in *; lia|lia|lia|done].
      by rewrite <- !app_assoc.
    + rewrite IH; [|unfold MinInt32 in *; lia|lia|lia|done].
      by rewrite <- !app_assoc.
Qed.

(** X10. A dump from [fromHeight] to a [toHeight] below [MaxInt32], on a
    store where no [Load] of the range fails other than by not-found,
    returns without error after loading the heights [fromHeight], ...,
    [toHeight] (both included) in this order, and shows the records of the
    batches found, in the order of the heights and within a batch in the
    stored order; a height without a batch contributes nothing. *)
Theorem dump_shows_batches_in_order fuel fromHeight toHeight chainRepo :
  is_int32 fromHeight ->
  toHeight < MaxInt32 ->
  (Z.to_nat (toHeight - fromHeight + 1) <= fuel)%nat ->
  chainrepo_NewPebble (repoPath (ChainRepoPebble cfg)) = Some chainRepo ->
  (forall h, fromHeight <= h <= toHeight ->
     (chainrepo.Load chainRepo h).2 <> Some chainrepo.ErrOther) ->
  dumpRunE fuel fromHeight toHeight
  = Some (mkDumped
            (EvNewPebble (repoPath (ChainRepoPebble cfg))
             :: map EvLoad (seqZ fromHeight (toHeight - fromHeight + 1)))
            (concat (map (found chainRepo)
                       (seqZ fromHeight (toHeight - fromHeight + 1))))
            None).
Proof.
  intros Hfrom Hto Hfuel Hrepo Hok. unfold dumpRunE.
  fold (repoPath (ChainRepoPebble cfg)). rewrite Hrepo.
  destruct (decide (toHeight < fromHeight)) as [Hlt|Hge].
  - assert (Hgt : (fromHeight <=? toHeight) = false) by lia.
    rewrite seqZ_nil by lia. destruct fuel; simpl; by rewrite Hgt.
  - rewrite (dumpLoop_run chainRepo toHeight
               (Z.to_nat (toHeight - fromHeight + 1)) Hto);
      [|unfold is_int32 in Hfrom; lia|lia|done|done].
    by rewrite Z2Nat.id by lia.
Qed.

(** X11. A dump whose [toHeight] is [MaxInt32] never returns normally: the
    test [height <= toHeight] holds for every value of the counter, and the
    increment wraps around. On a store where no [Load] fails other than by
    not-found, no number of iterations ends the loop. *)
Theorem dump_to_MaxInt32_never_returns fuel fromHeight chainRepo :
  is_int32 fromHeight ->
  chainrepo_NewPebble (repoPath (ChainRepoPebble cfg)) = Some chainRepo ->
  (forall h, (chainrepo.Load chainRepo h).2 <> Some chainrepo.ErrOther) ->
  dumpRunE fuel fromHeight MaxInt32 = None.
Proof.
  intros Hfrom Hrepo Hok. unfold dumpRunE.
  fold (repoPath (ChainRepoPebble cfg)). rewrite Hrepo.
  generalize [EvNewPebble (repoPath (ChainRepoPebble cfg))] as tr.
  generalize (@nil change.Change) as shown0.
  revert fromHeight Hfrom.
  induction fuel as [|fuel IH]; intros fromHeight Hfrom shown0 tr.
  - simpl. assert (Hle : (fromHeight <=? MaxInt32) = true)
      by (unfold is_int32 in Hfrom; lia).
    by rewrite Hle.
  - simpl. assert (Hle : (fromHeight <=? MaxInt32) = true)
      by (unfold is_int32 in Hfrom; lia).
    rewrite Hle. specialize (Hok fromHeight).
    destruct (chainrepo.Load chainRepo fromHeight) as [changes [[]|]]; simpl in *;
      [|done|]; apply IH, int32_range.
Qed.

End DumpFacts.

(** * The theorems on the sample ledger *)

Import Sample.

Lemma sample_claimOpcodes : @claimOpcodes decoder.
Proof.
  intros script cs e H. simpl in H. unfold decode in H.
  destruct script as [|b rest]; [discriminate|].
  destruct b; try discriminate; repeat case_decide; inversion H; done.
Qed.

Lemma sample_nilOnError : @nilOnError decoder.
Proof.
  intros script cs e H. simpl in H. unfold decode in H.
  destruct script as [|b rest]; [by inversion H|].
  destruct b; try (by inversion H); repeat case_decide; inversion H; done.
Qed.

(** C1 on the altered store: the replay of heights 0 to 3 goes through
    height 1 and stops at height 2. *)
Lemma replay_aborts_at_first_mismatch_witness :
  replayLoop (Tr := trie) (Pb := pebble) (Ch := chain) alteredRepo ledger4 3 0 (mkTrie 0 []) []
  = mkReplayed (Some (mkTrie 2 [Byte.x61; Byte.x61; Byte.x62]))
      [EvLoad 1; EvBlockByHeight 1; EvLoad 2; EvBlockByHeight 2]
      (Some (ErrAppendBlock
               (ErrHashMismatched 2 [Byte.x61; Byte.x61; Byte.x61]
                  [Byte.x61; Byte.x61; Byte.x62]))).
Proof.
  apply (replay_aborts_at_first_mismatch (Tr := trie) (Pb := pebble) (Ch := chain) alteredRepo ledger4 1 1 0
           (mkTrie 0 []) [] (mkTrie 1 nameA) [EvLoad 1; EvBlockByHeight 1]
           [chgSpend2; chgAltered2] None
           (mkTrie 1 [Byte.x61; Byte.x61; Byte.x62])
           (mkTrie 2 [Byte.x61; Byte.x61; Byte.x62]) block2).
  - reflexivity.
  - reflexivity.
  - discriminate.
  - reflexivity.
  - reflexivity.
  - reflexivity.
  - discriminate.
Defined.

(** C2 on block 2: the spend of the claim of block 1 comes before the
    update. *)
Lemma extractBlock_spends_before_creations_witness :
  exists parts : list (list change.Change * list change.Change),
    [chgSpend2; chgUpdate2] = concat (map (fun p => p.1 ++ p.2) parts) /\
    Forall2 (fun tx p => Forall (spendSide tx) p.1 /\
                         Forall (creationSide tx) p.2)
      (btcutil.Transactions block2) parts.
Proof.
  apply (extractBlock_spends_before_creations (Dec := decoder) (Chg := pkg) (Bc := utxo) view1 block2 view2).
  - exact sample_claimOpcodes.
  - reflexivity.
Defined.

(** C3 on block 3: the input of [tx3] spends an output with an update
    script. *)
Lemma spend_classified_by_opcode_witness :
  chgSpend3 ∈ [chgSpend3].
Proof.
  apply (spend_classified_by_opcode (Dec := decoder) (Chg := pkg) (Bc := utxo) 3 tx3 view2 []
           (addTxOuts view2 (hashOf Byte.x03) 0 (btcutil.TxOut tx3))
           [chgSpend3]
           (wire.mkTxIn (wire.mkOutPoint (hashOf Byte.x02) 0))
           (blockchain.mkUtxoEntry updateA)
           (txscript.mkClaimScript txscript.OP_UPDATECLAIM nameA idA)).
  - reflexivity.
  - reflexivity.
  - apply list_elem_of_In. simpl. by left.
  - reflexivity.
  - reflexivity.
  - intros _. reflexivity.
Defined.

(** C6 as stated fails: in the run of the extractor on block 2, after the
    first statement of the iteration for [tx2] the input of [tx2] is still
    to be resolved, and the view already holds the first output of [tx2],
    which the incoming view does not. *)
Lemma outputs_registered_while_inputs_pending :
  ~ (forall height tx txs v c k txIns i,
       steps (Dec := decoder) (Chg := pkg) (Bc := utxo) height
         (mkConf (AtTxs (tx :: txs)) v c) k ->
       control k = AtTxIns txIns tx txs ->
       txIns <> [] ->
       blockchain.LookupEntry (view k) (wire.mkOutPoint (btcutil.TxHash tx) i)
       = blockchain.LookupEntry v (wire.mkOutPoint (btcutil.TxHash tx) i)).
Proof.
  intros H.
  specialize (H 2 tx2 [] view1 []
                (mkConf (AtTxIns (btcutil.TxIn tx2) tx2 [])
                   (blockchain.AddTxOuts (Utxo := utxo) view1 tx2 2) [])
                (btcutil.TxIn tx2) 0).
  assert (Hheld : blockchain.LookupEntry (Utxo := utxo)
                    (blockchain.AddTxOuts (Utxo := utxo) view1 tx2 2)
                    (wire.mkOutPoint (btcutil.TxHash tx2) 0)
                  = Some (blockchain.mkUtxoEntry updateA)) by reflexivity.
  assert (Hnot : blockchain.LookupEntry (Utxo := utxo) view1
                   (wire.mkOutPoint (btcutil.TxHash tx2) 0) = None)
    by reflexivity.
  assert (Hsame : Some (blockchain.mkUtxoEntry updateA) = None).
  { rewrite <- Hheld, <- Hnot. apply H.
    - apply steps_one, step_tx. reflexivity.
    - reflexivity.
    - discriminate. }
  discriminate Hsame.
Qed.

(** C7 on a block with a malformed update script in an output. *)
Lemma not_claim_skipped_malformed_fatal_witness :
  createChange (Dec := decoder) (Chg := pkg) 1 (hashOf Byte.x01) 1
    (wire.mkTxOut 39 payTo) = Done None /\
  exists why, extractBlock (Dec := decoder) (Chg := pkg) (Bc := utxo) view1 blockBad = Panic why.
Proof.
  destruct (not_claim_skipped_malformed_fatal (Dec := decoder) (Chg := pkg) (Bc := utxo) sample_nilOnError)
    as (_ & Hskip & _ & Hfatal & _).
  split.
  - apply (Hskip 1 (hashOf Byte.x01) 1%nat (wire.mkTxOut 39 payTo) None).
    reflexivity.
  - apply (Hfatal view1 blockBad txBad (wire.mkTxOut 1 [Byte.xb7; Byte.x00])
             txscript.ErrInvalidClaimScript).
    + apply list_elem_of_In. simpl. right. by left.
    + reflexivity.
    + apply list_elem_of_In. simpl. by left.
    + reflexivity.
    + discriminate.
Defined.

(** C8 on the sample ledger: three batches are saved, under 1, 2 and 3. *)
Lemma saved_batches_keyed_by_height_witness :
  exists r (k : nat),
    saveChanges (Tr := trie) (Pb := pebble) (Ch := chain) (En := env ∅ ledger4) [[chgAdd1]; [chgSpend2; chgUpdate2]; [chgSpend3]]
    = Done r /\
    Forall (savedUnderItsHeight (Dec := decoder) (Chg := pkg) (Bc := utxo) ledger4) r.2 /\
    saves r.2 = map (fun batch => (batchKey batch, batch))
                  (take k [[chgAdd1]; [chgSpend2; chgUpdate2]; [chgSpend3]]).
Proof.
  apply (saved_batches_keyed_by_height (Dec := decoder) (Chg := pkg) (Bc := utxo) (Tr := trie) (Pb := pebble) (Ch := chain) (En := env ∅ ledger4) ledger4
           [[chgAdd1]; [chgSpend2; chgUpdate2]; [chgSpend3]]
           (processBlock ledger4).2).
  - reflexivity.
  - exists []. reflexivity.
Defined.

(** C10 on block 2. *)
Lemma extraction_deterministic_witness :
  Done (view2, [chgSpend2; chgUpdate2])
  = extractBlock (Dec := decoder) (Chg := pkg) (Bc := utxo) view1 block2 /\
  Done (view2, [chgSpend2; chgUpdate2])
  = extractBlock (Dec := decoder) (Chg := pkg) (Bc := utxo) view1 block2.
Proof.
  assert (Hrun : runs (Dec := decoder) (Chg := pkg) (Bc := utxo) view1 block2
                   (Done (view2, [chgSpend2; chgUpdate2]))).
  { replace (Done (view2, [chgSpend2; chgUpdate2]))
      with (extractBlock (Dec := decoder) (Chg := pkg) (Bc := utxo) view1 block2)
      by reflexivity.
    apply runs_extractBlock. }
  apply (extraction_deterministic (Dec := decoder) (Chg := pkg) (Bc := utxo)
           view1 block2 _ _ Hrun (runs_extractBlock _ _)).
Defined.

(** C5. With [--height 3] on a ledger whose tip has height 10, the fetch
    stage reads the blocks of heights 0 to 9, not those of heights 0 to 2. *)
Theorem convert_reads_past_height_flag :
  (fun c => reads (fetched c).1) <$> convertRunE (Dec := decoder) (Chg := pkg) (Bc := utxo) (Tr := trie) (Pb := pebble) (Ch := chain) (En := env ∅ ledger11) 3
  = Some (seqZ 0 10) /\
  seqZ 0 10 <> seqZ 0 (Z.min 3 (ledger.BestSnapshotHeight (Chain := chain) ledger11)).
Proof. split; [vm_compute; reflexivity | vm_compute; discriminate]. Qed.

(** * The further properties on the sample ledger *)

(** X1 on block 2: the output of [tx2] carries an update script. *)
Lemma creation_classified_by_opcode_witness :
  chgUpdate2 ∈ [chgSpend2; chgUpdate2].
Proof.
  apply (creation_classified_by_opcode (Dec := decoder) (Chg := pkg) (Bc := utxo)
           2 tx2 view1 []
           (addTxOuts view1 (hashOf Byte.x02) 0 (btcutil.TxOut tx2))
           [chgSpend2; chgUpdate2] 0 (wire.mkTxOut 7 updateA)
           (txscript.mkClaimScript txscript.OP_UPDATECLAIM nameA idA)).
  - reflexivity.
  - reflexivity.
  - reflexivity.
  - reflexivity.
  - intros _. reflexivity.
Defined.

(** X2 on block 2. *)
Lemma extractBlock_registers_every_transaction_witness :
  view2 = foldl (fun view tx => blockchain.AddTxOuts (Utxo := utxo) view tx 2)
            view1 [coinbase Byte.xc2; tx2].
Proof.
  apply (extractBlock_registers_every_transaction
           (Dec := decoder) (Chg := pkg) (Bc := utxo)
           view1 block2 view2 [chgSpend2; chgUpdate2]).
  reflexivity.
Defined.

(** X3 on block 2: two records, for one input and one output. *)
Lemma batch_length_bounded_witness :
  (length [chgSpend2; chgUpdate2]
   <= sum_list (map (capacity (Bc := utxo)) (btcutil.Transactions block2)))%nat.
Proof.
  apply (batch_length_bounded (Dec := decoder) (Chg := pkg) (Bc := utxo)
           view1 block2 view2).
  reflexivity.
Defined.

(** X4 on the sample ledger: batches of heights 1, 2, 3 from blocks of
    heights 0, 1, 2, 3. *)
Lemma batches_sent_in_block_order_witness :
  map batchKey [[chgAdd1]; [chgSpend2; chgUpdate2]; [chgSpend3]]
  `sublist_of` map btcutil.Height ledger4.
Proof.
  apply (batches_sent_in_block_order (Dec := decoder) (Chg := pkg) (Bc := utxo)
           ledger4 _ (processBlock ledger4).2).
  reflexivity.
Defined.

(** X6 on a store whose batch of height 2 holds a record of an unknown
    type: the spend before it is applied, the update after it is not. *)
Lemma replay_stops_at_failing_change_witness :
  replayLoop (Tr := trie) (Pb := pebble) (Ch := chain) corruptRepo ledger4 2 1
    (mkTrie 1 nameA) []
  = mkReplayed (Some (mkTrie 1 (nameA ++ nameA))) [EvLoad 2]
      (Some (ErrExecuteChange chgInvalid2)).
Proof.
  apply (replay_stops_at_failing_change (Tr := trie) (Pb := pebble) (Ch := chain)
           corruptRepo ledger4 1 1 (mkTrie 1 nameA) []
           [chgSpend2] chgInvalid2 [chgUpdate2] None (mkTrie 1 (nameA ++ nameA))).
  - reflexivity.
  - discriminate.
  - reflexivity.
  - reflexivity.
Defined.

(** X7 on the store of the ledger: after heights 1 to 3 the commitment is
    the one of the header of block 3. *)
Lemma replay_success_is_verified_witness :
  exists trie' block,
    ct (replayLoop (Tr := trie) (Pb := pebble) (Ch := chain) goodRepo ledger4 3 0
          (mkTrie 0 []) []) = Some trie' /\
    ledger.BlockByHeight (Chain := chain) ledger4 (claimtrie.Height trie')
      = Some block /\
    claimtrie.MerkleHash trie' = btcutil.ClaimTrie block.
Proof.
  apply (replay_success_is_verified (Tr := trie) (Pb := pebble) (Ch := chain)
           goodRepo ledger4 3 0 (mkTrie 0 []) []).
  - lia.
  - reflexivity.
Defined.

(** X8 on a node where the node repository cannot be deleted. *)
Lemma replay_delete_failure_aborts_witness :
  replayRunE (Tr := trie) (Pb := pebble) (Ch := chain)
    (En := envNoDelete goodRepo ledger4) 0 3
  = mkReplayed None
      [EvRemoveAll "/data/mainnet/claim_dbs/blocks_pebble_db";
       EvRemoveAll "/data/mainnet/claim_dbs/node_change_pebble_db"]
      (Some (ErrDeleteRepo "/data/mainnet/claim_dbs/node_change_pebble_db")).
Proof.
  apply (replay_delete_failure_aborts (Tr := trie) (Pb := pebble) (Ch := chain)
           (En := envNoDelete goodRepo ledger4) 0 3
           ["blocks_pebble_db"%string] "node_change_pebble_db"%string
           ["merkletrie_pebble_db"%string; "temporal_pebble_db"%string]).
  - reflexivity.
  - repeat constructor.
  - reflexivity.
Defined.

(** X9 with the default flags. *)
Lemma replay_empty_range_witness :
  replayRunE (Tr := trie) (Pb := pebble) (Ch := chain)
    (En := env goodRepo ledger4) 0 0
  = mkReplayed (Some (mkTrie 0 []))
      [EvRemoveAll "/data/mainnet/claim_dbs/blocks_pebble_db";
       EvRemoveAll "/data/mainnet/claim_dbs/node_change_pebble_db";
       EvRemoveAll "/data/mainnet/claim_dbs/merkletrie_pebble_db";
       EvRemoveAll "/data/mainnet/claim_dbs/temporal_pebble_db";
       EvNewPebble "/data/mainnet/claim_dbs/chain_pebble_db"]
      None.
Proof.
  apply (replay_empty_range (Tr := trie) (Pb := pebble) (Ch := chain)
           (En := env goodRepo ledger4) 0 0 goodRepo (mkTrie 0 []) tt ledger4).
  - lia.
  - repeat constructor.
  - reflexivity.
  - reflexivity.
  - reflexivity.
  - reflexivity.
Defined.

Lemma sample_Load_no_other (repo : gmap Z (list change.Change)) h :
  (chainrepo.Load (Pebble := pebble) repo h).2 <> Some chainrepo.ErrOther.
Proof. simpl. by destruct (repo !! h). Qed.

(** X10 on the store of the ledger: heights 0 to 4, of which 1, 2 and 3
    hold a batch. *)
Lemma dump_shows_batches_in_order_witness :
  dumpRunE (Tr := trie) (Pb := pebble) (Ch := chain)
    (En := env goodRepo ledger4) 5 0 4
  = Some (mkDumped
            [EvNewPebble "/data/mainnet/claim_dbs/chain_pebble_db";
             EvLoad 0; EvLoad 1; EvLoad 2; EvLoad 3; EvLoad 4]
            [chgAdd1; chgSpend2; chgUpdate2; chgSpend3]
            None).
Proof.
  apply (dump_shows_batches_in_order (Tr := trie) (Pb := pebble) (Ch := chain)
           (En := env goodRepo ledger4) 5 0 4 goodRepo).
  - unfold is_int32, MinInt32, MaxInt32. lia.
  - unfold MaxInt32. lia.
  - simpl. lia.
  - reflexivity.
  - intros h _. apply sample_Load_no_other.
Defined.

(** X11 on the store of the ledger, with a thousand iterations. *)
Lemma dump_to_MaxInt32_never_returns_witness :
  dumpRunE (Tr := trie) (Pb := pebble) (Ch := chain)
    (En := env goodRepo ledger4) 1000 2147483000 MaxInt32 = None.
Proof.
  apply (dump_to_MaxInt32_never_returns (Tr := trie) (Pb := pebble) (Ch := chain)
           (En := env goodRepo ledger4) 1000 2147483000 goodRepo).
  - unfold is_int32, MinInt32, MaxInt32. lia.
  - reflexivity.
  - apply sample_Load_no_other.
Defined.

(** X5 on the ledger of eleven blocks: after three reads and two sends. *)
Lemma getBlock_reads_and_sends_in_height_order_witness :
  [0; 1; 2] = seqZ 0 (Z.of_nat (length [0; 1; 2])) /\
  Z.of_nat (length [0; 1; 2])
    <= Z.max 0 (Z.min 200000 (ledger.BestSnapshotHeight (Chain := chain) ledger11)) /\
  Forall2 (fun h block =>
             ledger.BlockByHeight (Chain := chain) ledger11 h = Some block)
    (seqZ 0 (Z.of_nat (length [emptyBlock 0; emptyBlock 1])))
    [emptyBlock 0; emptyBlock 1] /\
  (forall (i : nat) h,
     [0; 1; 2] !! i = Some h ->
     ledger.BlockByHeight (Chain := chain) ledger11 h = None ->
     length (reads (getBlock (Ch := chain) ledger11).1) = S i).
Proof.
  apply (getBlock_reads_and_sends_in_height_order (Ch := chain) ledger11
           [0; 1; 2] [emptyBlock 0; emptyBlock 1]).
  - exists [3; 4; 5; 6; 7; 8; 9]. reflexivity.
  - exists (emptyBlock <$> seqZ 2 8). reflexivity.
Defined.

Lemma sample_addTxOuts_frame view hash i txOuts k :
  k.1 <> hash -> addTxOuts view hash i txOuts !! k = view !! k.
Proof.
  intros Hne. revert view i.
  induction txOuts as [|txOut rest IH]; intros view i; simpl; [done|].
  rewrite IH. apply lookup_insert_ne. intros Heq. apply Hne. by rewrite <- Heq.
Qed.

Lemma sample_viewFrame : viewFrame (Bc := utxo).
Proof.
  intros v tx height op Hne. simpl. by apply sample_addTxOuts_frame.
Qed.

(** X12 on the transaction of block 2. *)
Lemma registration_order_unobservable_witness :
  processTx (Dec := decoder) (Chg := pkg) (Bc := utxo) 2 tx2 (view1, [])
  = processTx_inputsFirst 2 tx2 (view1, []).
Proof.
  apply (registration_order_unobservable (Dec := decoder) (Chg := pkg)
           (Bc := utxo) 2 tx2 (view1, [])).
  - exact sample_viewFrame.
  - repeat constructor. simpl. discriminate.
Defined.
